(** * The undo-manager module of the editor (src/undo_manager/index.js)

    A shallow embedding of the module factory: its closure variables
    ([em], [um], [config], [beforeCache]), the capture handlers it registers
    on the underlying undo manager, and the facade methods it returns. *)

From Stdlib Require Import ZArith.
From stdpp Require Import gmap strings list.

Set Warnings "-register-all,-clear-no-such-hyp".
Open Scope Z_scope.

(** ** JavaScript values *)

Module JS.

(** Arrays and objects are compared by reference, so both carry the address
    they live at.  A Boolean wrapper object ([new Boolean(b)]) is an object
    like any other, except that underscore's [isBoolean] accepts it. *)
Inductive value :=
  | VUndefined
  | VNull
  | VBool (b : bool)
  | VNum (n : Z)
  | VStr (s : string)
  | VArr (ref : nat) (items : list value)
  | VObj (ref : nat)
  | VBoolObj (ref : nat) (b : bool).

(** ToBoolean *)
Definition truthy (v : value) : bool :=
  match v with
  | VUndefined | VNull => false
  | VBool b => b
  | VNum n => negb (n =? 0)
  | VStr s => negb (String.eqb s EmptyString)
  | VArr _ _ | VObj _ | VBoolObj _ _ => true
  end.

(** [a || b] *)
Definition or (a b : value) : value := if truthy a then a else b.

(** [a === b] *)
Definition strict_eq (a b : value) : bool :=
  match a, b with
  | VUndefined, VUndefined => true
  | VNull, VNull => true
  | VBool x, VBool y => Bool.eqb x y
  | VNum x, VNum y => x =? y
  | VStr x, VStr y => String.eqb x y
  | VArr r _, VArr r' _ => Nat.eqb r r'
  | VObj r, VObj r' => Nat.eqb r r'
  | VBoolObj r _, VBoolObj r' _ => Nat.eqb r r'
  | _, _ => false
  end.

(** [Array.prototype.indexOf]: position of the first element strictly equal
    to [x], or -1. *)
Fixpoint indexOf_from (i : Z) (l : list value) (x : value) : Z :=
  match l with
  | [] => -1
  | y :: l' => if strict_eq y x then i else indexOf_from (i + 1) l' x
  end.

Definition indexOf (l : list value) (x : value) : Z := indexOf_from 0 l x.

(** [Array.prototype.some] *)
Definition some {A} (p : A -> bool) (l : list A) : bool := existsb p l.

(** underscore's [isBoolean]: [true], [false], or an object of class
    Boolean. *)
Definition isBoolean (v : value) : bool :=
  match v with VBool _ | VBoolObj _ _ => true | _ => false end.

(** underscore's [isArray] *)
Definition isArray (v : value) : bool :=
  match v with VArr _ _ => true | _ => false end.

(** A plain object used as a record of named properties. *)
Abbreviation jsobj := (gmap string value).

(** [o.k]: a missing property reads as [undefined]. *)
Definition prop (o : jsobj) (k : string) : value := default VUndefined (o !! k).

(** [{ ...a, ...b }]: the properties of [b] are written after those of [a]
    and win on a shared key.  stdpp's union is left-biased. *)
Definition spread (a b : jsobj) : jsobj := b ∪ a.

(** [Object.keys] *)
Definition keys (o : jsobj) : list string := (map_to_list o).*1.

End JS.

Import JS.

(** ** Module-level constants *)

(** [const configDef = { maximumStackLength: 500 }] *)
Definition configDef : jsobj := {[ "maximumStackLength" := VNum 500 ]}.

(** [const hasSkip = opts => opts.avoidStore || opts.noUndo] *)
Definition hasSkip (opts : jsobj) : value :=
  JS.or (prop opts "avoidStore") (prop opts "noUndo").

(** A parameter declared [opts = {}]: the default replaces a missing
    ([undefined]) argument only. *)
Definition or_empty (o : option jsobj) : jsobj := default ∅ o.

(** ** Tracked entities

    The engine only uses four methods of a tracked model: [get],
    [previousAttributes], [changedAttributes] and [toJSON].  What [toJSON]
    serialises under given options is the entity's own business, so the
    entity carries it. *)

Record Entity := {
  cid : nat;
  attributes : jsobj;
  _previousAttributes : jsobj;
  changed : jsobj;
  serialise : jsobj -> jsobj
}.

Definition get (e : Entity) (k : string) : value := prop (attributes e) k.
Definition previousAttributes (e : Entity) : jsobj := _previousAttributes e.
Definition changedAttributes (e : Entity) : jsobj := changed e.
Definition toJSON (e : Entity) (opts : jsobj) : jsobj := serialise e opts.

(** ** Capture results *)

Inductive payload :=
  | PUndefined
  | PSnapshot (s : jsobj)
  | PModel (m : nat).

(** What an [on] handler returns: [{ object, before, after, options }].
    [object] and a model payload are references, kept by [cid]. *)
Record Capture := {
  object : nat;
  before : payload;
  after : payload;
  options : option jsobj
}.

(** The closure variable [beforeCache]: unset ([undefined] or [null]) or a
    snapshot, which as an object is always truthy. *)
Abbreviation cache := (option jsobj).

(** ** The handlers registered by [init] *)

(** ['change'].condition *)
Definition arr_indexOf (a x : value) : Z :=
  match a with VArr _ items => indexOf items x | _ => -1 end.

Definition condition (obj : Entity) : bool :=
  let hasUndo := get obj "_undo" in
  if truthy hasUndo then
    if isBoolean hasUndo then true
    else
      if isArray hasUndo
      then
        let changed := keys (changedAttributes obj) in
        if JS.some (fun chn : string => 0 <=? arr_indexOf hasUndo hasUndo) changed
        then true else false
      else false
  else false.

(** ['change'].on *)
Definition on_change (obj : Entity) (opt : option jsobj) (beforeCache : cache)
    : option Capture * cache :=
  let opt := or_empty opt in
  let beforeCache :=
    match beforeCache with
    | None => previousAttributes obj
    | Some b => b
    end in
  if truthy (hasSkip opt) then (None, Some beforeCache)
  else
    let result := {| object := cid obj;
                     before := PSnapshot beforeCache;
                     after := PSnapshot (toJSON obj {[ "fromUndo" := VNum 1 ]});
                     options := None |} in
    (Some result, None).

(** [customUndoType.on] *)
Definition on_custom (obj : Entity) (opt : option jsobj) (beforeCache : cache)
    : option Capture * cache :=
  let opt := or_empty opt in
  let beforeCache :=
    match beforeCache with
    | None => previousAttributes obj
    | Some b => b
    end in
  if truthy (hasSkip opt) then (None, Some beforeCache)
  else
    let result := {| object := cid obj;
                     before := PSnapshot beforeCache;
                     after := PSnapshot (toJSON obj {[ "keepSymbols" := VNum 1 ]});
                     options := None |} in
    (Some result, None).

(** ['add'].on *)
Definition on_add (model : Entity) (collection : nat) (options : option jsobj)
    : option Capture :=
  let options := or_empty options in
  if truthy (hasSkip options) then None
  else Some {| object := collection;
               before := PUndefined;
               after := PModel (cid model);
               options := Some (spread ∅ options) |}.

(** ['remove'].on *)
Definition on_remove (model : Entity) (collection : nat) (options : option jsobj)
    : option Capture :=
  let options := or_empty options in
  if truthy (hasSkip options) then None
  else Some {| object := collection;
               before := PModel (cid model);
               after := PUndefined;
               options := Some (spread ∅ options) |}.

(** [const events = ['style', 'attributes', 'content', 'src']] *)
Definition events : list string := ["style"; "attributes"; "content"; "src"]%string.

(** ** The underlying undo manager

    [um] is an instance of the backbone-undo library, which is not part of
    this module; what the module relies on is modelled from the
    specification's Command Stack, Type Registry, Tracking Registry and
    Change Recorder. *)

(** Modelled from the spec: an entry of the library's stack, the capture
    result stamped with its change kind and its group tag (read by
    [getStackGroup] as [magicFusionIndex]). *)
Record ChangeRecord := {
  kind : string;
  capture : Capture;
  magicFusionIndex : Z
}.

(** The change kinds this module registers: the three whose handlers
    [changeUndoType] overrides, and the custom one. *)
Inductive UndoType := ChangeType | AddType | RemoveType | CustomType.

(** A listener [() => em.trigger(names)]; both listeners that [init]
    installs have this shape. *)
Inductive callback := EmTrigger (names : string).

(** Modelled from the spec: the state of the library's undo manager: the
    options it was constructed with, the command stack and its pointer, the
    tracking switch, the tracked entities, the registered change kinds, the
    event listeners and the current group tag. *)
Record UndoManager := {
  attrs : jsobj;
  stack : list ChangeRecord;
  pointer : nat;
  track : bool;
  registered : list nat;
  undoTypes : gmap string UndoType;
  listeners : list (string * callback);
  currentGroupId : Z
}.

(** ** The world the module runs in *)

(** The host's editor model, as far as the module uses it: [isEditing()]
    and the events it has been asked to [trigger]. *)
Record Host := {
  addr : nat;
  editing : bool;
  triggered : list string
}.

Record World := {
  (* closure variables of the module factory *)
  em : value;
  um : option UndoManager;
  config : option jsobj;
  beforeCache : cache;
  (* the property [this.em] of the module object *)
  this_em : value;
  (* objects owned by the host *)
  host : Host;
  store : gmap nat Entity;
  (* next free address for an object literal *)
  next_ref : nat
}.

(** What a facade method returns. *)
Inductive ret :=
  | RThis
  | RUndefined
  | RBool (b : bool)
  | RConfig (c : option jsobj)
  | RInstance (u : option UndoManager)
  | RStack (s : list ChangeRecord) (p : nat)
  | RGroup (g : list ChangeRecord)
  | RPointer (p : nat).

(** Computations over the world that may throw ([None]: a [TypeError] from
    calling a method on [undefined] or on an object that lacks it). *)
Definition M (A : Type) : Type := World -> option (A * World).

Definition retM {A} (a : A) : M A := fun w => Some (a, w).
Definition bindM {A B} (m : M A) (k : A -> M B) : M B :=
  fun w => match m w with
           | Some (a, w') => k a w'
           | None => None
           end.
Definition reads {A} (f : World -> A) : M A := fun w => Some (f w, w).
Definition modify (f : World -> World) : M unit := fun w => Some (tt, f w).

Notation "'let!' x ':=' m 'in' k" := (bindM m (fun x => k))
  (at level 10, x name, k at level 200).
Notation "m '>>' k" := (bindM m (fun _ => k))
  (at level 62, right associativity).

Definition set_um (u : UndoManager) (w : World) : World :=
  {| em := em w; um := Some u; config := config w; beforeCache := beforeCache w;
     this_em := this_em w; host := host w; store := store w;
     next_ref := next_ref w |}.

Definition set_beforeCache (c : cache) (w : World) : World :=
  {| em := em w; um := um w; config := config w; beforeCache := c;
     this_em := this_em w; host := host w; store := store w;
     next_ref := next_ref w |}.

Definition set_this_em (v : value) (w : World) : World :=
  {| em := em w; um := um w; config := config w; beforeCache := beforeCache w;
     this_em := v; host := host w; store := store w;
     next_ref := next_ref w |}.

Definition set_host (h : Host) (w : World) : World :=
  {| em := em w; um := um w; config := config w; beforeCache := beforeCache w;
     this_em := this_em w; host := h; store := store w;
     next_ref := next_ref w |}.

Definition set_store (s : gmap nat Entity) (w : World) : World :=
  {| em := em w; um := um w; config := config w; beforeCache := beforeCache w;
     this_em := this_em w; host := host w; store := s;
     next_ref := next_ref w |}.

(** Taking the next free address. *)
Definition bump_ref (w : World) : World :=
  {| em := em w; um := um w; config := config w; beforeCache := beforeCache w;
     this_em := this_em w; host := host w; store := store w;
     next_ref := S (next_ref w) |}.

(** The object literal [{}]: a fresh empty object. *)
Definition new_object : M value :=
  fun w => Some (VObj (next_ref w), bump_ref w).

(** The array literal [[]]: a fresh empty array. *)
Definition new_array : M value :=
  fun w => Some (VArr (next_ref w) [], bump_ref w).

(** Reading [um] for a method call: calling a method on [undefined] throws. *)
Definition the_um : M UndoManager :=
  fun w => match um w with Some u => Some (u, w) | None => None end.

(** The host object behind [em], when [em] refers to it. *)
Definition the_host : M Host :=
  fun w => match em w with
           | VObj r => if Nat.eqb r (addr (host w)) then Some (host w, w) else None
           | _ => None
           end.

(** [em.isEditing()] *)
Definition em_isEditing : M bool := let! h := the_host in retM (editing h).

(** Event names are separated by spaces, in [on] and in [trigger]. *)
Definition flush (acc : string) : list string :=
  if String.eqb acc EmptyString then [] else [acc].

Fixpoint split_names (acc : string) (s : string) : list string :=
  match s with
  | EmptyString => flush acc
  | String c s' =>
      if Ascii.eqb c (Ascii.ascii_of_nat 32)
      then flush acc ++ split_names EmptyString s'
      else split_names (String.append acc (String c EmptyString)) s'
  end.

(** [em.trigger(names)]: the host receives each named event in turn. *)
Definition em_trigger (names : string) : M unit :=
  let! h := the_host in
  modify (set_host {| addr := addr h; editing := editing h;
                      triggered := triggered h ++ split_names EmptyString names |}).

(** ** Operations of the underlying undo manager *)

Definition with_stack (st : list ChangeRecord) (p : nat) (u : UndoManager)
    : UndoManager :=
  {| attrs := attrs u; stack := st; pointer := p; track := track u;
     registered := registered u; undoTypes := undoTypes u;
     listeners := listeners u; currentGroupId := currentGroupId u |}.

Definition with_track (b : bool) (u : UndoManager) : UndoManager :=
  {| attrs := attrs u; stack := stack u; pointer := pointer u; track := b;
     registered := registered u; undoTypes := undoTypes u;
     listeners := listeners u; currentGroupId := currentGroupId u |}.

Definition with_registered (l : list nat) (u : UndoManager) : UndoManager :=
  {| attrs := attrs u; stack := stack u; pointer := pointer u; track := track u;
     registered := l; undoTypes := undoTypes u;
     listeners := listeners u; currentGroupId := currentGroupId u |}.

Definition with_undoTypes (t : gmap string UndoType) (u : UndoManager)
    : UndoManager :=
  {| attrs := attrs u; stack := stack u; pointer := pointer u; track := track u;
     registered := registered u; undoTypes := t;
     listeners := listeners u; currentGroupId := currentGroupId u |}.

Definition with_listeners (l : list (string * callback)) (u : UndoManager)
    : UndoManager :=
  {| attrs := attrs u; stack := stack u; pointer := pointer u; track := track u;
     registered := registered u; undoTypes := undoTypes u;
     listeners := l; currentGroupId := currentGroupId u |}.

(** Modelled from the spec: the entities named by the library's [register]
    option, an array of references. *)
Definition refs_of (v : value) : list nat :=
  match v with
  | VArr _ items =>
      omap (fun x => match x with VObj r => Some r | _ => None end) items
  | _ => []
  end.

(** Modelled from the spec: the constructor of the library's undo manager.
    It starts with an empty stack, pointer 0, and takes the tracking switch
    and the initial registrations from its [track] and [register] options.
    The library's own ['reset'] kind, which this module never touches, is
    left out. *)
Definition new_UndoManager (a : jsobj) : UndoManager :=
  {| attrs := a; stack := []; pointer := 0; track := truthy (prop a "track");
     registered := refs_of (prop a "register"); undoTypes := ∅;
     listeners := []; currentGroupId := 0 |}.

(** Modelled from the spec: the type registry ([register(kind, handler)]
    replaces any handler of that kind; the library's [changeUndoType] and
    [addUndoType] both end in it). *)
Definition register_type (k : string) (t : UndoType) (u : UndoManager)
    : UndoManager :=
  with_undoTypes (<[k := t]> (undoTypes u)) u.

(** Modelled from the spec: the library's [on(names, callback)], Backbone's
    event subscription; one listener per space-separated name, kept in
    subscription order. *)
Definition um_on (names : string) (cb : callback) (u : UndoManager)
    : UndoManager :=
  with_listeners (listeners u ++ map (fun n => (n, cb)) (split_names EmptyString names)) u.

(** Running a listener. *)
Definition run_callback (cb : callback) : M unit :=
  match cb with EmTrigger names => em_trigger names end.

(** Modelled from the spec: the library's [trigger(ev)]; the listeners of
    [ev] run in subscription order. *)
Fixpoint run_listeners (ev : string) (ls : list (string * callback)) : M unit :=
  match ls with
  | [] => retM tt
  | (n, cb) :: ls' =>
      (if String.eqb n ev then run_callback cb else retM tt) >>
      run_listeners ev ls'
  end.

(** Modelled from the spec: the library's [trigger(ev)] on the undo
    manager held in [um]. *)
Definition um_trigger (ev : string) : M unit :=
  let! u := the_um in run_listeners ev (listeners u).

(** Modelled from the spec: the bound of the stack, read from the option
    [maximumStackLength] the manager was constructed with. *)
Definition maximumStackLength (u : UndoManager) : nat :=
  match attrs u !! "maximumStackLength" with
  | Some (VNum n) => Z.to_nat n
  | _ => 500%nat
  end.

(** Modelled from the spec: [push(record)] truncates the tail at the
    pointer, appends, advances the pointer by 1, and evicts the oldest
    records while the stack is over its bound, the pointer moving with
    them. *)
Definition push (r : ChangeRecord) (u : UndoManager) : UndoManager :=
  let st := take (pointer u) (stack u) ++ [r] in
  let p := S (pointer u) in
  let over := (length st - maximumStackLength u)%nat in
  with_stack (drop over st) (p - over)%nat u.

(** Modelled from the spec: [isAvailable('undo')], the pointer is above 0. *)
Definition isAvailable_undo (u : UndoManager) : bool := (0 <? pointer u)%nat.

(** Modelled from the spec: [isAvailable('redo')], the pointer is below the
    length of the stack. *)
Definition isAvailable_redo (u : UndoManager) : bool :=
  (pointer u <? length (stack u))%nat.

(** Modelled from the spec: [clear()] empties the stack and resets the
    pointer; registrations stay. *)
Definition um_clear (u : UndoManager) : UndoManager := with_stack [] 0 u.

(** Modelled from the spec: the tracking registry of the library,
    [register(entity)] adds an entity to those under observation. *)
Definition um_register (entity : nat) (u : UndoManager) : UndoManager :=
  with_registered (registered u ++ [entity]) u.

(** Modelled from the spec: [unregister(entity)] removes it. *)
Definition um_unregister (entity : nat) (u : UndoManager) : UndoManager :=
  with_registered (filter (fun x => x ≠ entity) (registered u)) u.

(** Modelled from the spec: [unregisterAll()] empties the registry. *)
Definition um_unregisterAll (u : UndoManager) : UndoManager :=
  with_registered [] u.

(** Modelled from the spec: [startTracking()] and [stopTracking()] switch
    the recorder on and off; registrations stay. *)
Definition um_startTracking (u : UndoManager) : UndoManager := with_track true u.

(** Modelled from the spec: see [um_startTracking]. *)
Definition um_stopTracking (u : UndoManager) : UndoManager := with_track false u.

(** ** Replay *)

(** What replay needs from code outside this module: Backbone's
    [Model.prototype.set], and the library's own undo and redo of the kinds
    for which this module overrides the capture only (['change'], ['add'],
    ['remove']). *)
Record Backbone := {
  model_set : payload -> Entity -> Entity;
  builtin_undo : ChangeRecord -> gmap nat Entity -> gmap nat Entity;
  builtin_redo : ChangeRecord -> gmap nat Entity -> gmap nat Entity
}.

Section Replay.

Variable lib : Backbone.

(** [customUndoType.undo]: [model.set(bf)] *)
Definition custom_undo (model : nat) (bf af : payload) (s : gmap nat Entity)
    : gmap nat Entity :=
  alter (model_set lib bf) model s.

(** [customUndoType.redo]: [model.set(af)] *)
Definition custom_redo (model : nat) (bf af : payload) (s : gmap nat Entity)
    : gmap nat Entity :=
  alter (model_set lib af) model s.

(** Modelled from the spec: a record is replayed by the handler registered
    for its kind; recording is suppressed meanwhile, so replay touches the
    entities only. *)
Definition applyUndo (u : UndoManager) (r : ChangeRecord) (s : gmap nat Entity)
    : gmap nat Entity :=
  match undoTypes u !! kind r with
  | Some CustomType =>
      custom_undo (object (capture r)) (before (capture r)) (after (capture r)) s
  | Some _ => builtin_undo lib r s
  | None => s
  end.

(** Modelled from the spec: as [applyUndo], for redo. *)
Definition applyRedo (u : UndoManager) (r : ChangeRecord) (s : gmap nat Entity)
    : gmap nat Entity :=
  match undoTypes u !! kind r with
  | Some CustomType =>
      custom_redo (object (capture r)) (before (capture r)) (after (capture r)) s
  | Some _ => builtin_redo lib r s
  | None => s
  end.

(** Modelled from the spec: the stepwise primitives of the command stack.
    Undo decrements the pointer and replays the record at the new pointer;
    redo replays the record at the pointer and increments it. *)
Definition step_back (us : UndoManager * gmap nat Entity)
    : UndoManager * gmap nat Entity :=
  let (u, s) := us in
  match pointer u with
  | O => us
  | S p =>
      (with_stack (stack u) p u,
       match stack u !! p with
       | Some r => applyUndo u r s
       | None => s
       end)
  end.

(** Modelled from the spec: see [step_back]. *)
Definition step_forth (us : UndoManager * gmap nat Entity)
    : UndoManager * gmap nat Entity :=
  let (u, s) := us in
  match stack u !! pointer u with
  | Some r => (with_stack (stack u) (S (pointer u)) u, applyRedo u r s)
  | None => us
  end.

(** Modelled from the spec: one logical operation is the run of contiguous
    records sharing a group tag. *)
Fixpoint run_length (g : Z) (l : list ChangeRecord) : nat :=
  match l with
  | [] => O
  | r :: l' => if magicFusionIndex r =? g then S (run_length g l') else O
  end.

(** Modelled from the spec: how many records one call replays, one or with
    [magic] the whole run that shares the first record's group tag. *)
Definition group_run (magic : bool) (l : list ChangeRecord) : nat :=
  match l with
  | [] => O
  | r :: l' => if magic then S (run_length (magicFusionIndex r) l') else 1%nat
  end.

(** Modelled from the spec: [n] steps on the undo manager held in [um] and
    on the entities. *)
Definition steps (step : UndoManager * gmap nat Entity -> UndoManager * gmap nat Entity)
    (n : nat) : M unit :=
  let! u := the_um in
  let! s := reads store in
  let (u', s') := Nat.iter n step (u, s) in
  modify (set_um u') >> modify (set_store s').

(** Modelled from the spec: [undo(magic)] and [redo(magic)] of the library.
    With nothing to replay they do nothing; otherwise they replay one record,
    or with [magic] one logical operation, and then emit ['undo'],
    respectively ['redo']. *)
Definition um_undo (magic : bool) : M unit :=
  let! u := the_um in
  if isAvailable_undo u
  then steps step_back (group_run magic (rev (take (pointer u) (stack u)))) >>
       um_trigger "undo"
  else retM tt.

(** Modelled from the spec: see [um_undo]. *)
Definition um_redo (magic : bool) : M unit :=
  let! u := the_um in
  if isAvailable_redo u
  then steps step_forth (group_run magic (drop (pointer u) (stack u))) >>
       um_trigger "redo"
  else retM tt.

(** Modelled from the spec: [undoAll()] and [redoAll()] repeat the step
    until the history is exhausted. *)
Definition um_undoAll : M unit :=
  let! u := the_um in
  if isAvailable_undo u
  then steps step_back (pointer u) >> um_trigger "undo"
  else retM tt.

(** Modelled from the spec: see [um_undoAll]. *)
Definition um_redoAll : M unit :=
  let! u := the_um in
  if isAvailable_redo u
  then steps step_forth (length (stack u) - pointer u)%nat >> um_trigger "redo"
  else retM tt.

(** *** Facade: replay methods *)

(** [undo(all = true) { !em.isEditing() && um.undo(all); return this; }] *)
Definition undo (all : option bool) : M ret :=
  let all := default true all in
  let! editing := em_isEditing in
  (if negb editing then um_undo all else retM tt) >>
  retM RThis.

(** [undoAll() { um.undoAll(); return this; }] *)
Definition undoAll : M ret := um_undoAll >> retM RThis.

(** [redo(all = true) { !em.isEditing() && um.redo(all); return this; }] *)
Definition redo (all : option bool) : M ret :=
  let all := default true all in
  let! editing := em_isEditing in
  (if negb editing then um_redo all else retM tt) >>
  retM RThis.

(** [redoAll() { um.redoAll(); return this; }] *)
Definition redoAll : M ret := um_redoAll >> retM RThis.

End Replay.

(** ** Recording *)

(** A mutation notification reaching the undo manager from a tracked
    entity, with the arguments Backbone fires the event with:
    ['change'] comes with [(model, options)], ['change:<attr>'] with
    [(model, value, options)], ['add'] and ['remove'] with
    [(model, collection, options)]. *)
Inductive notification :=
  | Changed (model : Entity) (options : jsobj)
  | AttrChanged (attr : string) (model : Entity) (val : value) (options : jsobj)
  | Added (model : Entity) (collection : nat) (options : jsobj)
  | Removed (model : Entity) (collection : nat) (options : jsobj).

(** The event name. *)
Definition n_kind (n : notification) : string :=
  match n with
  | Changed _ _ => "change"
  | AttrChanged attr _ _ _ => String.append "change:" attr
  | Added _ _ _ => "add"
  | Removed _ _ _ => "remove"
  end.

(** The first argument of the event, the model. *)
Definition n_model (n : notification) : Entity :=
  match n with
  | Changed m _ | AttrChanged _ m _ _ | Added m _ _ | Removed m _ _ => m
  end.

(** The options the mutation was made with. *)
Definition n_options (n : notification) : jsobj :=
  match n with
  | Changed _ o | AttrChanged _ _ _ o | Added _ _ o | Removed _ _ o => o
  end.

(** The second argument of the event, when it is a collection. *)
Definition n_collection (n : notification) : option nat :=
  match n with
  | Added _ c _ | Removed _ c _ => Some c
  | _ => None
  end.

(** The third argument of the event: the options, except for ['change'],
    which is fired with two arguments only. *)
Definition n_third (n : notification) : option jsobj :=
  match n with
  | Changed _ _ => None
  | AttrChanged _ _ _ o | Added _ _ o | Removed _ _ o => Some o
  end.

(** The [condition] registered for a kind, called with the arguments of the
    event; only ['change'] has one. *)
Definition condition_of (t : UndoType) (n : notification) : bool :=
  match t with
  | ChangeType => condition (n_model n)
  | _ => true
  end.

(** The [on] registered for a kind, called with the arguments of the event
    in their positions: [on(object, v, opt = {})] of ['change'] and of the
    custom type reads its options from the third argument, and so do
    [on(model, collection, options = {})] of ['add'] and ['remove'].  The
    latter two are registered under events whose second argument is a
    collection; under another event there is no collection to record, a
    case this module never sets up. *)
Definition on_of (t : UndoType) (n : notification) (c : cache)
    : option Capture * cache :=
  match t with
  | ChangeType => on_change (n_model n) (n_third n) c
  | CustomType => on_custom (n_model n) (n_third n) c
  | AddType =>
      match n_collection n with
      | Some col => (on_add (n_model n) col (n_third n), c)
      | None => (None, c)
      end
  | RemoveType =>
      match n_collection n with
      | Some col => (on_remove (n_model n) col (n_third n), c)
      | None => (None, c)
      end
  end.

(** Modelled from the spec: the change recorder.  While tracking is on, it
    resolves the handler of the kind, checks its condition, invokes the
    capture, and pushes a record with the current group tag unless the
    capture returned nothing. *)
Definition record_change (n : notification) : M unit :=
  let! u := the_um in
  if track u then
    match undoTypes u !! n_kind n with
    | None => retM tt
    | Some t =>
        if condition_of t n then
          let! c := reads beforeCache in
          let (res, c') := on_of t n c in
          modify (set_beforeCache c') >>
          match res with
          | None => retM tt
          | Some cap =>
              modify (set_um (push {| kind := n_kind n; capture := cap;
                                      magicFusionIndex := currentGroupId u |} u))
          end
        else retM tt
    end
  else retM tt.

(** ** The facade *)

Definition set_config (c : jsobj) (w : World) : World :=
  {| em := em w; um := um w; config := Some c; beforeCache := beforeCache w;
     this_em := this_em w; host := host w; store := store w;
     next_ref := next_ref w |}.

Definition set_em (v : value) (w : World) : World :=
  {| em := v; um := um w; config := config w; beforeCache := beforeCache w;
     this_em := this_em w; host := host w; store := store w;
     next_ref := next_ref w |}.

(** [Array.prototype.forEach] *)
Fixpoint forEach {A} (f : A -> M unit) (l : list A) : M unit :=
  match l with
  | [] => retM tt
  | x :: l' => f x >> forEach f l'
  end.

Definition update_um (f : UndoManager -> UndoManager) : M unit :=
  let! u := the_um in modify (set_um (f u)).

(** [init(opts = {})] *)
Definition init (opts : option jsobj) : M ret :=
  let opts := or_empty opts in
  let cfg := spread opts configDef in
  modify (set_config cfg) >>
  modify (set_em (prop cfg "em")) >>
  modify (set_this_em (prop cfg "em")) >>
  let! reg := new_array in
  modify (set_um (new_UndoManager
            (spread {[ "track" := VBool true; "register" := reg ]} cfg))) >>
  update_um (register_type "change" ChangeType) >>
  update_um (register_type "add" AddType) >>
  update_um (register_type "remove" RemoveType) >>
  forEach (fun ev => update_um (register_type (String.append "change:" ev) CustomType))
          events >>
  update_um (um_on "undo redo" (EmTrigger "component:toggled change:canvasOffset")) >>
  forEach (fun ev => update_um (um_on ev (EmTrigger ev))) ["undo"; "redo"]%string >>
  retM RThis.

(** [getConfig() { return config; }] *)
Definition getConfig : M ret := let! c := reads config in retM (RConfig c).

(** [add(entity) { um.register(entity); return this; }] *)
Definition add (entity : nat) : M ret :=
  update_um (um_register entity) >> retM RThis.

(** [remove(entity) { um.unregister(entity); return this; }] *)
Definition remove (entity : nat) : M ret :=
  update_um (um_unregister entity) >> retM RThis.

(** [removeAll() { um.unregisterAll(); return this; }] *)
Definition removeAll : M ret :=
  update_um um_unregisterAll >> retM RThis.

(** [start() { um.startTracking(); return this; }] *)
Definition start : M ret := update_um um_startTracking >> retM RThis.

(** [stop() { um.stopTracking(); return this; }] *)
Definition stop : M ret := update_um um_stopTracking >> retM RThis.

(** [hasUndo() { return um.isAvailable('undo'); }] *)
Definition hasUndo : M ret :=
  let! u := the_um in retM (RBool (isAvailable_undo u)).

(** [hasRedo() { return um.isAvailable('redo'); }] *)
Definition hasRedo : M ret :=
  let! u := the_um in retM (RBool (isAvailable_redo u)).

(** [getStack() { return um.stack; }] *)
Definition getStack : M ret :=
  let! u := the_um in retM (RStack (stack u) (pointer u)).

(** The body of [getStackGroup]'s loop: [result] and [inserted] grow
    together, by the items whose group tag [inserted] lacks. *)
Definition group_step (acc : list ChangeRecord * list value) (item : ChangeRecord)
    : list ChangeRecord * list value :=
  let (result, inserted) := acc in
  let index := VNum (magicFusionIndex item) in
  if indexOf inserted index <? 0
  then (result ++ [item], inserted ++ [index])
  else (result, inserted).

Definition stack_group (st : list ChangeRecord) : list ChangeRecord :=
  fst (fold_left group_step st ([], [])).

(** [getStackGroup()] *)
Definition getStackGroup : M ret :=
  let! u := the_um in retM (RGroup (stack_group (stack u))).

(** [getPointer() { return this.getStack().pointer; }] *)
Definition getPointer : M ret :=
  let! u := the_um in retM (RPointer (pointer u)).

(** [clear() { um.clear(); return this; }] *)
Definition clear : M ret := update_um um_clear >> retM RThis.

(** [getInstance() { return um; }] *)
Definition getInstance : M ret := let! u := reads um in retM (RInstance u).

(** The elements of the array [[em, um, config, beforeCache]]: the values
    the four variables hold when the array is built. *)
Inductive held :=
  | HValue (v : value)
  | HManager (u : option UndoManager)
  | HConfig (c : option jsobj)
  | HCache (c : cache).

(** [i => (i = {})]: the assignment is to the callback's own parameter. *)
Definition reset_param (i : held) : M unit :=
  let! i := (let! o := new_object in retM (HValue o)) in
  retM tt.

(** [destroy()] *)
Definition destroy : M ret :=
  clear >> removeAll >>
  let! e := reads em in
  let! u := reads um in
  let! c := reads config in
  let! b := reads beforeCache in
  forEach reset_param [HValue e; HManager u; HConfig c; HCache b] >>
  (let! o := new_object in modify (set_this_em o)) >>
  retM RUndefined.

(** The world before [init]: every closure variable is still [undefined]. *)
Definition fresh_world (h : Host) (s : gmap nat Entity) (next : nat) : World :=
  {| em := VUndefined; um := None; config := None; beforeCache := None;
     this_em := VUndefined; host := h; store := s; next_ref := next |}.

(** * Specification-side definitions and example data *)

(** The listeners [init] leaves on the undo manager, in subscription
    order. *)
Definition init_listeners : list (string * callback) :=
  [("undo", EmTrigger "component:toggled change:canvasOffset");
   ("redo", EmTrigger "component:toggled change:canvasOffset");
   ("undo", EmTrigger "undo");
   ("redo", EmTrigger "redo")]%string.

(** A mutation's options carry a suppression flag when [avoidStore] or
    [noUndo] holds a truthy value. *)
Definition suppressed (opts : jsobj) : Prop :=
  truthy (prop opts "avoidStore") = true \/ truthy (prop opts "noUndo") = true.

(** The reduced view of the stack as the specification words it: walking
    the records in stack order, keep a record when its group tag has not
    been seen yet. *)
Fixpoint first_per_group (seen : list Z) (st : list ChangeRecord)
    : list ChangeRecord :=
  match st with
  | [] => []
  | r :: st' =>
      if bool_decide (magicFusionIndex r ∈ seen)
      then first_per_group seen st'
      else r :: first_per_group (magicFusionIndex r :: seen) st'
  end.

(** The distinct group tags of a stack. *)
Definition group_tags (st : list ChangeRecord) : gset Z :=
  list_to_set (magicFusionIndex <$> st).

(** Sequences of notifications through the two handlers that share
    [beforeCache]. *)
Inductive handler := OnChange | OnCustom.

Definition call (h : handler) (e : Entity) (opt : option jsobj) (c : cache)
    : option Capture * cache :=
  match h with
  | OnChange => on_change e opt c
  | OnCustom => on_custom e opt c
  end.

Fixpoint run_calls (ns : list (handler * Entity * option jsobj)) (c : cache)
    : list (option Capture) * cache :=
  match ns with
  | [] => ([], c)
  | (h, e, o) :: ns' =>
      let (r, c') := call h e o c in
      let (rs, c'') := run_calls ns' c' in
      (r :: rs, c'')
  end.

(** The record a capture should carry when the cache is scoped per entity:
    the entity's own previous attributes. *)
Definition own_capture (h : handler) (e : Entity) : Capture :=
  {| object := cid e;
     before := PSnapshot (previousAttributes e);
     after := PSnapshot (toJSON e match h with
                                  | OnChange => {[ "fromUndo" := VNum 1 ]}
                                  | OnCustom => {[ "keepSymbols" := VNum 1 ]}
                                  end);
     options := None |}.

(** Example data. *)
Definition host0 : Host := {| addr := 0; editing := false; triggered := [] |}.

Definition plain (id : nat) (now prev chg : jsobj) : Entity :=
  {| cid := id; attributes := now; _previousAttributes := prev;
     changed := chg; serialise := fun _ => now |}.

Definition entityA : Entity :=
  plain 1 {[ "color" := VStr "blue" ]} {[ "color" := VStr "red" ]}
          {[ "color" := VStr "blue" ]}.

Definition entityB : Entity :=
  plain 2 {[ "width" := VNum 20 ]} {[ "width" := VNum 10 ]}
          {[ "width" := VNum 20 ]}.

(** An entity whose undoable marker lists the attribute that changed. *)
Definition listed : Entity :=
  plain 3 {[ "_undo" := VArr 7 [VStr "color"]; "color" := VStr "blue" ]}
          {[ "_undo" := VArr 7 [VStr "color"]; "color" := VStr "red" ]}
          {[ "color" := VStr "blue" ]}.

Definition avoidStore : jsobj := {[ "avoidStore" := VBool true ]}.
Definition noUndo : jsobj := {[ "noUndo" := VBool true ]}.

(** Whether a handler called with these options takes the skipping branch. *)
Definition skips (opt : option jsobj) : bool := truthy (hasSkip (or_empty opt)).

(** The record a capture produces when it finds snapshot [b] in the cache. *)
Definition capture_with (b : jsobj) (h : handler) (e : Entity) : Capture :=
  {| object := cid e;
     before := PSnapshot b;
     after := after (own_capture h e);
     options := None |}.

(** The events the listeners of [ev] send to the host, in order. *)
Definition emitted (ev : string) (ls : list (string * callback)) : list string :=
  flat_map (fun l => match l with
                     | (n, EmTrigger names) =>
                         if String.eqb n ev then split_names EmptyString names else []
                     end) ls.

(** The world after the host has received the events [l]. *)
Definition heard (l : list string) (w : World) : World :=
  set_host {| addr := addr (host w); editing := editing (host w);
              triggered := triggered (host w) ++ l |} w.

(** The change kinds on the undo manager once [init] has run. *)
Definition init_undoTypes : gmap string UndoType :=
  {[ "change" := ChangeType; "add" := AddType; "remove" := RemoveType;
     "change:style" := CustomType; "change:attributes" := CustomType;
     "change:content" := CustomType; "change:src" := CustomType ]}.

(** A stand-in for Backbone in examples: [set] merges a snapshot into the
    attributes; the library's replay of ['change'] sets the snapshot, and
    collections are not kept in the example store. *)
Definition example_set (p : payload) (e : Entity) : Entity :=
  match p with
  | PSnapshot s =>
      {| cid := cid e; attributes := s ∪ attributes e;
         _previousAttributes := attributes e; changed := s;
         serialise := serialise e |}
  | _ => e
  end.

Definition example_lib : Backbone :=
  {| model_set := example_set;
     builtin_undo := fun r s =>
       if String.eqb (kind r) "change"
       then alter (example_set (before (capture r))) (object (capture r)) s
       else s;
     builtin_redo := fun r s =>
       if String.eqb (kind r) "change"
       then alter (example_set (after (capture r))) (object (capture r)) s
       else s |}.

Definition example_record (e : Entity) (g : Z) : ChangeRecord :=
  {| kind := "change:style"; capture := own_capture OnCustom e;
     magicFusionIndex := g |}.

Definition example_stack : list ChangeRecord :=
  [example_record entityA 1; example_record entityB 1; example_record entityA 2].

Definition example_config : jsobj :=
  {[ "em" := VObj 0; "maximumStackLength" := VNum 500 ]}.

Definition example_manager (st : list ChangeRecord) (p : nat) : UndoManager :=
  {| attrs := spread {[ "track" := VBool true; "register" := VArr 1 [] ]}
                     example_config;
     stack := st; pointer := p; track := true; registered := [1; 2]%nat;
     undoTypes := init_undoTypes; listeners := init_listeners;
     currentGroupId := 3 |}.

(** A module after [init({ em })], with two tracked entities, a stack and a
    pointer, whose host is or is not in an inline-edit session. *)
Definition example_world (ed : bool) (c : cache) (st : list ChangeRecord) (p : nat)
    : World :=
  {| em := VObj 0; um := Some (example_manager st p);
     config := Some example_config; beforeCache := c; this_em := VObj 0;
     host := {| addr := 0; editing := ed; triggered := [] |};
     store := {[ 1%nat := entityA; 2%nat := entityB ]}; next_ref := 2 |}.

(** The group tags of a stack, in stack order. *)
Definition tags (st : list ChangeRecord) : list Z := magicFusionIndex <$> st.

(** A capture with [before] and [after] exchanged. *)
Definition mirror (c : Capture) : Capture :=
  {| object := object c; before := after c; after := before c;
     options := options c |}.

(** A computation that, when it returns, leaves [beforeCache] as it found
    it. *)
Definition keeps_cache {A} (m : M A) : Prop :=
  forall w r w', m w = Some (r, w') -> beforeCache w' = beforeCache w.

(** The entity whose notification opens the run that a capture on [e]
    closes: the first of the suppressed notifications [mid] that precede the
    capture, or [e] itself when there is none. *)
Definition run_opener (mid : list (handler * Entity * option jsobj)) (e : Entity)
    : Entity :=
  match mid with
  | [] => e
  | (_, e0, _) :: _ => e0
  end.

(** An entity marked undoable whose colour changed. *)
Definition undoable : Entity :=
  plain 4 {[ "_undo" := VBool true; "color" := VStr "blue" ]}
          {[ "_undo" := VBool true; "color" := VStr "red" ]}
          {[ "color" := VStr "blue" ]}.

(** * Properties *)

(** ** Running the monad *)

Lemma bind_modify {B} (f : World -> World) (k : M B) (w : World) :
  (modify f >> k) w = k (f w).
Proof. reflexivity. Qed.

Lemma bind_update_um {B} (f : UndoManager -> UndoManager) (k : M B) u w :
  (update_um f >> k) (set_um u w) = k (set_um (f u) w).
Proof. reflexivity. Qed.

Lemma bind_new_array {B} (k : value -> M B) (w : World) :
  (let! a := new_array in k a) w =
  k (VArr (next_ref w) []) (bump_ref w).
Proof. reflexivity. Qed.

Lemma update_um_run (f : UndoManager -> UndoManager) (u : UndoManager) (w : World) :
  um w = Some u -> update_um f w = Some (tt, set_um (f u) w).
Proof. intros H. unfold update_um, the_um, bindM, modify. by rewrite H. Qed.

(** ** Configuration *)

Lemma spread_lookup (a b : jsobj) (k : string) :
  spread a b !! k = match b !! k with Some v => Some v | None => a !! k end.
Proof.
  unfold spread. destruct (b !! k) as [v|] eqn:Hb.
  - by apply lookup_union_Some_l.
  - by rewrite lookup_union_r.
Qed.

Lemma config_maximumStackLength (opts : jsobj) :
  prop (spread opts configDef) "maximumStackLength" = VNum 500.
Proof. unfold prop. rewrite spread_lookup. reflexivity. Qed.

(** [init] never throws; it sets the closure variables [config], [em] and
    [um] and the property [this.em], and leaves the cache, the host and the
    entities alone. *)
Lemma init_spec (opts : option jsobj) (w : World) :
  let cfg := spread (or_empty opts) configDef in
  exists w' u,
    init opts w = Some (RThis, w') /\
    config w' = Some cfg /\
    em w' = prop cfg "em" /\
    this_em w' = prop cfg "em" /\
    beforeCache w' = beforeCache w /\
    host w' = host w /\
    store w' = store w /\
    um w' = Some u /\
    attrs u = spread {[ "track" := VBool true;
                        "register" := VArr (next_ref w) [] ]} cfg /\
    stack u = [] /\ pointer u = O /\
    listeners u = init_listeners.
Proof.
  intros cfg. unfold init. fold cfg.
  rewrite !bind_modify, bind_new_array, bind_modify.
  cbn [forEach events]. rewrite !bind_update_um.
  do 2 eexists. split; [reflexivity|].
  repeat (split; [reflexivity|]). reflexivity.
Qed.

Lemma getConfig_spec (w : World) : getConfig w = Some (RConfig (config w), w).
Proof. reflexivity. Qed.

(** When the caller omits [maximumStackLength], the value in effect is 500. *)
Lemma init_default_maximumStackLength (opts : option jsobj) (w : World) :
  or_empty opts !! "maximumStackLength" = None ->
  exists w' cfg,
    init opts w = Some (RThis, w') /\
    getConfig w' = Some (RConfig (Some cfg), w') /\
    prop cfg "maximumStackLength" = VNum 500.
Proof.
  intros _. destruct (init_spec opts w) as (w' & u & Hi & Hc & _).
  exists w', (spread (or_empty opts) configDef).
  rewrite getConfig_spec, Hc. auto using config_maximumStackLength.
Qed.

(** Whatever the caller supplies, the value in effect is 500 as well:
    [configDef] is spread after [opts]. *)
Lemma init_any_maximumStackLength (opts : option jsobj) (w : World) :
  exists w' cfg u,
    init opts w = Some (RThis, w') /\
    getConfig w' = Some (RConfig (Some cfg), w') /\
    prop cfg "maximumStackLength" = VNum 500 /\
    um w' = Some u /\ maximumStackLength u = 500%nat.
Proof.
  destruct (init_spec opts w)
    as (w' & u & Hi & Hc & _ & _ & _ & _ & _ & Hu & Ha & _).
  exists w', (spread (or_empty opts) configDef), u.
  rewrite getConfig_spec, Hc. repeat split; auto using config_maximumStackLength.
  unfold maximumStackLength. rewrite Ha, !spread_lookup. reflexivity.
Qed.

(** C1, at a failing input: [init({ maximumStackLength: 10 })] on a fresh
    module leaves 500 in effect, in the configuration returned by
    [getConfig()] and as the bound of the undo manager, while the claim has
    the supplied 10 in effect. *)
Theorem init_overrides_supplied_maximumStackLength :
  exists w cfg,
    init (Some {[ "maximumStackLength" := VNum 10 ]}) (fresh_world host0 ∅ 1)
      = Some (RThis, w) /\
    getConfig w = Some (RConfig (Some cfg), w) /\
    prop cfg "maximumStackLength" = VNum 500 /\
    (maximumStackLength <$> um w) = Some 500%nat.
Proof.
  destruct (init_any_maximumStackLength
              (Some {[ "maximumStackLength" := VNum 10 ]})
              (fresh_world host0 ∅ 1))
    as (w & cfg & u & Hi & Hg & Hc & Hu & Hm).
  exists w, cfg. repeat split; try assumption.
  rewrite Hu. change (Some (maximumStackLength u) = Some 500%nat). by rewrite Hm.
Qed.

(** ** The condition of the ['change'] kind *)

Lemma condition_true (e : Entity) :
  attributes e !! "_undo" = Some (VBool true) -> condition e = true.
Proof. intros H. unfold condition, get, prop. by rewrite H. Qed.

Lemma condition_false (e : Entity) :
  attributes e !! "_undo" = Some (VBool false) -> condition e = false.
Proof. intros H. unfold condition, get, prop. by rewrite H. Qed.

Lemma condition_absent (e : Entity) :
  attributes e !! "_undo" = None -> condition e = false.
Proof. intros H. unfold condition, get, prop. by rewrite H. Qed.

(** An array is never strictly equal to one of the names it holds. *)
Lemma indexOf_names_self (names : list string) (r : nat) (l : list value) (i : Z) :
  indexOf_from i (VStr <$> names) (VArr r l) = -1.
Proof.
  revert i. induction names as [|n names IH]; intros i; [reflexivity|].
  cbn. apply IH.
Qed.

Lemma some_const_false {A} (l : list A) : JS.some (fun _ => false) l = false.
Proof. induction l; auto. Qed.

(** With a list of attribute names as marker the condition is false,
    whatever changed: the search is for the list itself, not for the
    changed attribute. *)
Lemma condition_names (e : Entity) (r : nat) (names : list string) :
  attributes e !! "_undo" = Some (VArr r (VStr <$> names)) ->
  condition e = false.
Proof.
  intros H. unfold condition, get, prop. rewrite H. cbn.
  unfold indexOf. rewrite indexOf_names_self. cbn.
  by rewrite some_const_false.
Qed.

(** C2, at a failing input: the entity's marker is the list [['color']] and
    its attribute [color] changed, so a changed attribute is a member of the
    list, and yet the condition evaluates false. *)
Theorem condition_ignores_listed_attribute :
  get listed "_undo" = VArr 7 [VStr "color"] /\
  keys (changedAttributes listed) = ["color"%string] /\
  condition listed = false.
Proof.
  split; [reflexivity|]. split; [vm_compute; reflexivity|].
  apply (condition_names listed 7 ["color"%string]). reflexivity.
Qed.

(** ** Suppression flags *)

Lemma truthy_hasSkip (opts : jsobj) :
  truthy (hasSkip opts) =
  truthy (prop opts "avoidStore") || truthy (prop opts "noUndo").
Proof.
  unfold hasSkip, JS.or.
  destruct (truthy (prop opts "avoidStore")) eqn:E; [by rewrite E | reflexivity].
Qed.

Lemma suppressed_hasSkip (opts : jsobj) :
  suppressed opts <-> truthy (hasSkip opts) = true.
Proof.
  rewrite truthy_hasSkip, orb_true_iff. reflexivity.
Qed.

Lemma on_change_suppressed e opts c :
  suppressed opts -> fst (on_change e (Some opts) c) = None.
Proof.
  intros H%suppressed_hasSkip. unfold on_change.
  change (or_empty (Some opts)) with opts. cbv zeta. by rewrite H.
Qed.

Lemma on_custom_suppressed e opts c :
  suppressed opts -> fst (on_custom e (Some opts) c) = None.
Proof.
  intros H%suppressed_hasSkip. unfold on_custom.
  change (or_empty (Some opts)) with opts. cbv zeta. by rewrite H.
Qed.

Lemma on_add_suppressed e col opts :
  suppressed opts -> on_add e col (Some opts) = None.
Proof.
  intros H%suppressed_hasSkip. unfold on_add.
  change (or_empty (Some opts)) with opts. cbv zeta. by rewrite H.
Qed.

Lemma on_remove_suppressed e col opts :
  suppressed opts -> on_remove e col (Some opts) = None.
Proof.
  intros H%suppressed_hasSkip. unfold on_remove.
  change (or_empty (Some opts)) with opts. cbv zeta. by rewrite H.
Qed.

Lemma on_of_suppressed t n c :
  n_third n = Some (n_options n) -> suppressed (n_options n) ->
  fst (on_of t n c) = None.
Proof.
  intros Hn H. unfold on_of. rewrite Hn. destruct t; cbn [fst].
  - by apply on_change_suppressed.
  - destruct (n_collection n); [by apply on_add_suppressed | reflexivity].
  - destruct (n_collection n); [by apply on_remove_suppressed | reflexivity].
  - by apply on_custom_suppressed.
Qed.

(** The part of C3 that the code keeps: an event that is fired with its
    options as third argument (['change:<attr>'], ['add'], ['remove']) and
    carries [avoidStore] or [noUndo] leaves the undo manager as it was. *)
Lemma suppressed_event_is_not_recorded
    (n : notification) (w : World) (u : UndoManager) :
  n_third n = Some (n_options n) ->
  suppressed (n_options n) ->
  um w = Some u ->
  exists w', record_change n w = Some (tt, w') /\ um w' = um w.
Proof.
  intros Hn Hs Hu.
  unfold record_change, bindM, the_um. rewrite Hu.
  destruct (track u); [|by exists w].
  destruct (undoTypes u !! n_kind n) as [t|]; [|by exists w].
  destruct (condition_of t n); [|by exists w].
  unfold reads.
  pose proof (on_of_suppressed t n (beforeCache w) Hn Hs) as Hon.
  destruct (on_of t n (beforeCache w)) as [res c'].
  cbn [fst] in Hon. subst res. unfold modify, retM. eexists.
  split; [reflexivity|]. cbn [um set_beforeCache]. by rewrite Hu.
Qed.

(** A ['change'] event hands its options to the handler as second argument,
    where the handler has [v]; its [opt] is left to the default [{}]. *)
Lemma change_event_runs_without_options (e : Entity) (opts : jsobj) (c : cache) :
  on_of ChangeType (Changed e opts) c = on_change e None c.
Proof. reflexivity. Qed.

Lemma on_change_without_options (e : Entity) (c : cache) :
  on_change e None c =
    (Some (capture_with (default (previousAttributes e) c) OnChange e), None).
Proof. by destruct c. Qed.

(** So a ['change'] on an undoable entity is recorded whatever its options
    carry. *)
Lemma change_is_recorded_whatever_options
    (e : Entity) (opts : jsobj) (w : World) (u : UndoManager) :
  um w = Some u ->
  track u = true ->
  undoTypes u !! "change" = Some ChangeType ->
  condition e = true ->
  record_change (Changed e opts) w =
    Some (tt, set_um (push {| kind := "change";
                              capture := capture_with
                                           (default (previousAttributes e)
                                                    (beforeCache w)) OnChange e;
                              magicFusionIndex := currentGroupId u |} u)
                (set_beforeCache None w)).
Proof.
  intros Hu Ht Hk Hc. unfold record_change, bindM, the_um. rewrite Hu, Ht.
  cbn [n_kind]. rewrite Hk. cbn [condition_of n_model]. rewrite Hc.
  unfold reads. rewrite change_event_runs_without_options,
    on_change_without_options. reflexivity.
Qed.

(** C3, at a failing input: an undoable entity changes its colour with
    [avoidStore] set.  Backbone fires ['change'] with [(model, options)], the
    handler looks for the flags in a third argument that is not there, and
    the change is recorded: the stack grows to length 1.  The same flag on
    the sibling event [change:style], which is fired with the options in
    third position, is honoured. *)
Theorem flagged_change_is_recorded :
  suppressed avoidStore /\
  match record_change (Changed undoable avoidStore)
                      (example_world false None [] 0) with
  | Some (_, w') => Some (stack <$> um w', pointer <$> um w')
  | None => None
  end =
    Some (Some [ {| kind := "change"; capture := own_capture OnChange undoable;
                    magicFusionIndex := 3 |} ], Some 1%nat) /\
  match record_change (AttrChanged "style" undoable (VStr "bold") avoidStore)
                      (example_world false None [] 0) with
  | Some (_, w') => Some (stack <$> um w', pointer <$> um w')
  | None => None
  end = Some (Some [], Some O).
Proof.
  split; [left; reflexivity|]. split; vm_compute; reflexivity.
Qed.

(** ** The grouped view of the stack *)

Lemma strict_eq_num (a b : Z) : strict_eq (VNum a) (VNum b) = bool_decide (a = b).
Proof.
  cbn. destruct (Z.eqb_spec a b); [by rewrite bool_decide_eq_true_2
                                  | by rewrite bool_decide_eq_false_2].
Qed.

(** On a list of numbers, [indexOf(x) < 0] says that [x] is not in it. *)
Lemma indexOf_from_absent (seen : list Z) (g : Z) (i : Z) :
  0 <= i ->
  (indexOf_from i (VNum <$> seen) (VNum g) <? 0) = negb (bool_decide (g ∈ seen)).
Proof.
  revert i. induction seen as [|a seen IH]; intros i Hi.
  - cbn. rewrite bool_decide_eq_false_2; [reflexivity | apply not_elem_of_nil].
  - cbn [fmap list_fmap indexOf_from]. rewrite strict_eq_num.
    destruct (decide (a = g)) as [->|Hne].
    + rewrite bool_decide_eq_true_2 by reflexivity.
      rewrite bool_decide_eq_true_2 by (apply elem_of_cons; by left).
      cbn. apply Z.ltb_ge. exact Hi.
    + rewrite bool_decide_eq_false_2 by exact Hne.
      change (list_fmap Z value VNum seen) with (VNum <$> seen).
      rewrite IH by lia. f_equal. apply bool_decide_ext.
      rewrite elem_of_cons. naive_solver.
Qed.

(** The specification's walk only asks whether a tag was seen. *)
Lemma first_per_group_ext (st : list ChangeRecord) (s1 s2 : list Z) :
  (forall g, g ∈ s1 <-> g ∈ s2) ->
  first_per_group s1 st = first_per_group s2 st.
Proof.
  revert s1 s2. induction st as [|r st IH]; intros s1 s2 H; [reflexivity|].
  cbn [first_per_group]. rewrite (bool_decide_ext _ _ (H (magicFusionIndex r))).
  destruct (bool_decide (magicFusionIndex r ∈ s2)); [by apply IH|].
  f_equal. apply IH. intros g. rewrite !elem_of_cons. by rewrite H.
Qed.

(** The loop of [getStackGroup], from any intermediate state: [inserted]
    holds the tags seen so far. *)
Lemma fold_group_step (st : list ChangeRecord) (result : list ChangeRecord)
    (seen : list Z) :
  fst (fold_left group_step st (result, VNum <$> seen)) =
  result ++ first_per_group seen st.
Proof.
  revert result seen. induction st as [|r st IH]; intros result seen.
  - cbn. by rewrite app_nil_r.
  - cbn [fold_left first_per_group]. unfold group_step at 2.
    unfold indexOf. rewrite indexOf_from_absent by lia.
    destruct (decide (magicFusionIndex r ∈ seen)) as [Hin|Hout].
    + rewrite !bool_decide_eq_true_2 by exact Hin. cbn [negb]. apply IH.
    + rewrite !bool_decide_eq_false_2 by exact Hout. cbn [negb].
      replace ((VNum <$> seen) ++ [VNum (magicFusionIndex r)])
        with (VNum <$> (seen ++ [magicFusionIndex r]))
        by (by rewrite fmap_app).
      rewrite IH, <- app_assoc. cbn [app]. do 2 f_equal.
      apply first_per_group_ext. intros g.
      rewrite elem_of_app, list_elem_of_singleton, elem_of_cons. naive_solver.
Qed.

Lemma stack_group_spec (st : list ChangeRecord) :
  stack_group st = first_per_group [] st.
Proof. unfold stack_group. apply (fold_group_step st [] []). Qed.

Lemma first_per_group_sublist (st : list ChangeRecord) (seen : list Z) :
  sublist (first_per_group seen st) st.
Proof.
  revert seen. induction st as [|r st IH]; intros seen; cbn [first_per_group].
  - constructor.
  - destruct (bool_decide _); [apply sublist_cons, IH | apply sublist_skip, IH].
Qed.

(** One record is kept per tag not seen before. *)
Lemma first_per_group_length (st : list ChangeRecord) (seen : list Z) :
  length (first_per_group seen st) =
  size (group_tags st ∖ list_to_set seen).
Proof.
  unfold group_tags.
  revert seen. induction st as [|r st IH]; intros seen; cbn [first_per_group].
  - rewrite fmap_nil, list_to_set_nil.
    rewrite (leibniz_equiv (∅ ∖ list_to_set seen) (∅ : gset Z)) by set_solver.
    by rewrite size_empty.
  - rewrite fmap_cons, list_to_set_cons.
    set (g := magicFusionIndex r).
    set (X := list_to_set (magicFusionIndex <$> st) : gset Z).
    destruct (decide (g ∈ seen)) as [Hin|Hout].
    + rewrite bool_decide_eq_true_2 by exact Hin. rewrite IH. f_equal.
      apply leibniz_equiv. fold X.
      assert (g ∈ (list_to_set seen : gset Z)) by by apply elem_of_list_to_set.
      set_solver.
    + rewrite bool_decide_eq_false_2 by exact Hout. cbn [length]. rewrite IH.
      fold X. rewrite list_to_set_cons.
      assert (g ∉ (list_to_set seen : gset Z)) by by rewrite elem_of_list_to_set.
      rewrite (leibniz_equiv (({[g]} ∪ X) ∖ list_to_set seen)
                 ({[g]} ∪ X ∖ ({[g]} ∪ list_to_set seen))).
      * rewrite (size_union {[g]} (X ∖ ({[g]} ∪ list_to_set seen)))
          by set_solver.
        by rewrite size_singleton.
      * intros x. destruct (decide (x = g)); set_solver.
Qed.

(** C6: [getStackGroup()] returns the records kept by walking the stack in
    order and keeping the first record met for each group tag; the result
    is a subsequence of the stack, and its length is the number of distinct
    group tags in the stack. *)
Theorem getStackGroup_first_per_group (w : World) :
  getStackGroup w =
    match um w with
    | Some u => Some (RGroup (first_per_group [] (stack u)), w)
    | None => None
    end /\
  forall st : list ChangeRecord,
    stack_group st = first_per_group [] st /\
    sublist (stack_group st) st /\
    length (stack_group st) = size (group_tags st).
Proof.
  split.
  - unfold getStackGroup, bindM, the_um, retM.
    destruct (um w) as [u|]; [|reflexivity]. by rewrite stack_group_spec.
  - intros st. rewrite stack_group_spec. split; [reflexivity|].
    split; [apply first_per_group_sublist|].
    rewrite first_per_group_length. f_equal. apply leibniz_equiv.
    rewrite list_to_set_nil. set_solver.
Qed.

(** ** The shared before-cache *)

Lemma call_skipped (h : handler) (e : Entity) (o : option jsobj) (c : cache) :
  skips o = true ->
  call h e o c = (None, Some (default (previousAttributes e) c)).
Proof.
  unfold skips. intros H. destruct h, c; cbv [call on_change on_custom];
    by rewrite H.
Qed.

Lemma call_captured (h : handler) (e : Entity) (o : option jsobj) (c : cache) :
  skips o = false ->
  call h e o c =
    (Some (capture_with (default (previousAttributes e) c) h e), None).
Proof.
  unfold skips. intros H. destruct h, c; cbv [call on_change on_custom];
    by rewrite H.
Qed.

Lemma call_captured_empty (h : handler) (e : Entity) (o : option jsobj) :
  skips o = false -> call h e o None = (Some (own_capture h e), None).
Proof. intros H. by rewrite call_captured. Qed.

Lemma run_calls_app ns1 ns2 (c : cache) :
  run_calls (ns1 ++ ns2) c =
    let (r1, c1) := run_calls ns1 c in
    let (r2, c2) := run_calls ns2 c1 in
    (r1 ++ r2, c2).
Proof.
  revert c. induction ns1 as [|[[h e] o] ns1 IH]; intros c; cbn [app run_calls].
  - by destruct (run_calls ns2 c).
  - destruct (call h e o c) as [r c']. rewrite IH.
    destruct (run_calls ns1 c') as [r1 c1].
    by destruct (run_calls ns2 c1).
Qed.

Lemma run_calls_length ns (c : cache) :
  length (fst (run_calls ns c)) = length ns.
Proof.
  revert c. induction ns as [|[[h e] o] ns IH]; intros c; [reflexivity|].
  cbn [run_calls]. destruct (call h e o c) as [r c']. specialize (IH c').
  destruct (run_calls ns c'). cbn in *. by rewrite IH.
Qed.

(** After a capture that completed, the cache is empty. *)
Lemma run_calls_snoc_captured ns h e o (c : cache) :
  skips o = false -> snd (run_calls (ns ++ [(h, e, o)]) c) = None.
Proof.
  intros H. rewrite run_calls_app. destruct (run_calls ns c) as [r1 c1].
  cbn [run_calls]. by rewrite call_captured.
Qed.

(** Suppressed notifications keep whatever snapshot the cache holds. *)
Lemma run_calls_skipped ns (b : jsobj) :
  Forall (fun n => skips n.2 = true) ns ->
  run_calls ns (Some b) = (const None <$> ns, Some b).
Proof.
  induction 1 as [|[[h e] o] ns Hs _ IH]; [reflexivity|].
  cbn [run_calls]. rewrite call_skipped by exact Hs. cbn [default from_option id].
  by rewrite IH.
Qed.

(** A run of suppressed notifications from an empty cache leaves the
    snapshot of its first notification. *)
Lemma run_calls_skipped_from_empty ns :
  Forall (fun n => skips n.2 = true) ns ->
  run_calls ns None =
    (const None <$> ns,
     match ns with
     | [] => None
     | (_, e0, _) :: _ => Some (previousAttributes e0)
     end).
Proof.
  intros H. destruct H as [|[[h0 e0] o0] rest H0 Hrest]; [reflexivity|].
  cbn [run_calls]. rewrite call_skipped by exact H0.
  cbn [default from_option id]. by rewrite run_calls_skipped.
Qed.

(** C7, as the code has it: every record carries as [before] the previous
    attributes of the entity whose notification opened the current run, the
    first notification since the last completed capture or since the start.
    A capture that opens its own run, or closes a run opened on the same
    entity, carries that entity's own snapshot; a capture that closes a run
    opened on another entity carries the other entity's. *)
Theorem capture_carries_snapshot_of_run_opener
    (pre mid post : list (handler * Entity * option jsobj))
    (h : handler) (e : Entity) (o : option jsobj) :
  (pre = [] \/ exists pre' n, pre = pre' ++ [n] /\ skips n.2 = false) ->
  Forall (fun n => skips n.2 = true) mid ->
  skips o = false ->
  fst (run_calls (pre ++ mid ++ (h, e, o) :: post) None)
      !! (length pre + length mid)%nat
    = Some (Some (capture_with (previousAttributes (run_opener mid e)) h e)) /\
  (mid = [] ->
   fst (run_calls (pre ++ mid ++ (h, e, o) :: post) None)
       !! (length pre + length mid)%nat
     = Some (Some (own_capture h e))).
Proof.
  intros Hpre Hmid Ho.
  assert (fst (run_calls (pre ++ mid ++ (h, e, o) :: post) None)
              !! (length pre + length mid)%nat
          = Some (Some (capture_with (previousAttributes (run_opener mid e)) h e)))
    as Hmain.
  { rewrite run_calls_app.
    assert (snd (run_calls pre None) = None) as Hc.
    { destruct Hpre as [->|(pre' & [[h' e'] o'] & -> & Hn)]; [reflexivity|].
      by apply run_calls_snoc_captured. }
    pose proof (run_calls_length pre None) as Hl.
    destruct (run_calls pre None) as [r1 c1]. cbn [fst snd] in Hc, Hl. subst c1.
    rewrite run_calls_app, run_calls_skipped_from_empty by exact Hmid.
    cbn [run_calls]. rewrite call_captured by exact Ho.
    destruct (run_calls post None) as [r2 c2]. cbn [fst].
    rewrite lookup_app_r by lia.
    rewrite lookup_app_r by (rewrite length_fmap; lia).
    rewrite length_fmap, Hl.
    replace (length pre + length mid - length pre - length mid)%nat with O by lia.
    cbn [lookup list_lookup]. do 3 f_equal.
    by destruct mid as [|[[h0 e0] o0] rest]. }
  split; [exact Hmain|]. intros ->. exact Hmain.
Qed.

(** C7 fails as stated: entity A is notified with [avoidStore], then entity
    B is notified with [avoidStore], then B's capture completes; B's record
    carries A's previous attributes, not its own. *)
Lemma shared_cache_crosses_entities :
  exists r,
    run_calls [(OnCustom, entityA, Some avoidStore);
               (OnCustom, entityB, Some avoidStore);
               (OnCustom, entityB, None)] None = ([None; None; Some r], None) /\
    object r = cid entityB /\
    cid entityA <> cid entityB /\
    before r = PSnapshot (previousAttributes entityA) /\
    before r <> PSnapshot (previousAttributes entityB).
Proof.
  exists (capture_with (previousAttributes entityA) OnCustom entityB).
  split; [reflexivity|]. split; [reflexivity|]. split; [cbn; lia|].
  split; [reflexivity|]. cbn [before capture_with]. intros [=].
Qed.

(** C10: a suppressed notification on entity A that finds the cache empty
    stores A's previous attributes and leaves them there; further suppressed
    notifications, on any entity, do not touch them; and the next capture
    that completes, on any entity B and through either handler, records A's
    snapshot as [before], after which the cache is empty. *)
Theorem suppressed_snapshot_reaches_next_capture
    (hA hB : handler) (A B : Entity) (oA oB : option jsobj)
    (mid : list (handler * Entity * option jsobj)) :
  skips oA = true ->
  Forall (fun n => skips n.2 = true) mid ->
  skips oB = false ->
  call hA A oA None = (None, Some (previousAttributes A)) /\
  call hB B oB (Some (previousAttributes A))
    = (Some (capture_with (previousAttributes A) hB B), None) /\
  run_calls ((hA, A, oA) :: mid ++ [(hB, B, oB)]) None
    = (None :: (const None <$> mid)
            ++ [Some (capture_with (previousAttributes A) hB B)], None).
Proof.
  intros HA Hmid HB.
  assert (call hA A oA None = (None, Some (previousAttributes A))) as H1
    by by rewrite call_skipped.
  assert (call hB B oB (Some (previousAttributes A))
          = (Some (capture_with (previousAttributes A) hB B), None)) as H2
    by by rewrite call_captured.
  split; [exact H1|]. split; [exact H2|].
  cbn [run_calls]. rewrite H1, run_calls_app, run_calls_skipped by exact Hmid.
  cbn [run_calls]. by rewrite H2.
Qed.

(** ** The edit-mode guard *)

Lemma em_isEditing_run (w : World) :
  em w = VObj (addr (host w)) -> em_isEditing w = Some (editing (host w), w).
Proof.
  intros H. unfold em_isEditing, bindM, the_host, retM.
  by rewrite H, Nat.eqb_refl.
Qed.

(** C4: while the host reports an inline-edit session, [undo()] and
    [redo()] return [this] and leave the whole world as it was: the stack
    and its pointer, every entity, the cache and the host's event log. *)
Theorem undo_redo_noop_while_editing
    (lib : Backbone) (all : option bool) (w : World) :
  em w = VObj (addr (host w)) ->
  editing (host w) = true ->
  undo lib all w = Some (RThis, w) /\ redo lib all w = Some (RThis, w).
Proof.
  intros Hem Hed. unfold undo, redo, bindM.
  rewrite em_isEditing_run by exact Hem. rewrite Hed. by split.
Qed.

Lemma undo_redo_noop_while_editing_witness :
  em (example_world true None example_stack 3)
    = VObj (addr (host (example_world true None example_stack 3))) /\
  editing (host (example_world true None example_stack 3)) = true /\
  undo example_lib None (example_world true None example_stack 3)
    = Some (RThis, example_world true None example_stack 3) /\
  redo example_lib None (example_world true None example_stack 3)
    = Some (RThis, example_world true None example_stack 3).
Proof.
  split; [reflexivity|]. split; [reflexivity|].
  apply (undo_redo_noop_while_editing example_lib None
           (example_world true None example_stack 3)); reflexivity.
Defined.

(** ** Events *)

Lemma heard_nil (w : World) : heard [] w = w.
Proof.
  destruct w as [? ? ? ? ? [? ? ?] ? ?]. unfold heard, set_host. cbn.
  by rewrite app_nil_r.
Qed.

Lemma heard_heard (l1 l2 : list string) (w : World) :
  heard l2 (heard l1 w) = heard (l1 ++ l2) w.
Proof. unfold heard, set_host. cbn. by rewrite app_assoc. Qed.

Lemma em_trigger_run (names : string) (w : World) :
  em w = VObj (addr (host w)) ->
  em_trigger names w = Some (tt, heard (split_names EmptyString names) w).
Proof.
  intros H. unfold em_trigger, bindM, the_host, modify.
  by rewrite H, Nat.eqb_refl.
Qed.

(** With [em] the host's editor model, triggering an event on the undo
    manager runs each of its listeners and the host hears what they send. *)
Lemma run_listeners_heard (ev : string) (ls : list (string * callback)) (w : World) :
  em w = VObj (addr (host w)) ->
  run_listeners ev ls w = Some (tt, heard (emitted ev ls) w).
Proof.
  revert w. induction ls as [|[n [names]] ls IH]; intros w H.
  - cbn. by rewrite heard_nil.
  - cbn [run_listeners emitted flat_map]. unfold bindM at 1.
    destruct (String.eqb n ev).
    + cbn [run_callback]. rewrite em_trigger_run by exact H.
      rewrite IH by exact H. by rewrite heard_heard.
    + unfold retM at 1. rewrite IH by exact H. reflexivity.
Qed.

Lemma um_trigger_heard (ev : string) (u : UndoManager) (w : World) :
  um w = Some u ->
  em w = VObj (addr (host w)) ->
  um_trigger ev w = Some (tt, heard (emitted ev (listeners u)) w).
Proof.
  intros Hu Hem. unfold um_trigger, bindM, the_um. rewrite Hu.
  by apply run_listeners_heard.
Qed.

(** ** Replay *)

Section ReplayFacts.

Variable lib : Backbone.

Lemma steps_run step (n : nat) (u : UndoManager) (w : World) :
  um w = Some u ->
  steps step n w =
    Some (tt, set_store (Nat.iter n step (u, store w)).2
                (set_um (Nat.iter n step (u, store w)).1 w)).
Proof.
  intros Hu. unfold steps, bindM, the_um, reads. rewrite Hu.
  by destruct (Nat.iter n step (u, store w)).
Qed.

(** Stepping back moves the pointer only, and stops at 0. *)
Lemma iter_step_back (n : nat) (u : UndoManager) (s : gmap nat Entity) :
  (Nat.iter n (step_back lib) (u, s)).1 = with_stack (stack u) (pointer u - n) u.
Proof.
  induction n as [|n IH].
  - cbn. rewrite Nat.sub_0_r. by destruct u.
  - cbn [Nat.iter nat_rect]. fold (Nat.iter n (step_back lib) (u, s)).
    destruct (Nat.iter n (step_back lib) (u, s)) as [u' s'].
    cbn [fst] in IH. subst u'. unfold step_back. cbn [pointer with_stack].
    destruct (pointer u - n)%nat as [|p] eqn:E.
    + cbn [fst]. by replace (pointer u - S n)%nat with O by lia.
    + cbn [fst stack]. by replace (pointer u - S n)%nat with p by lia.
Qed.

(** Stepping forth moves the pointer only, and stops at the end of the
    stack. *)
Lemma iter_step_forth (n : nat) (u : UndoManager) (s : gmap nat Entity) :
  (pointer u <= length (stack u))%nat ->
  (Nat.iter n (step_forth lib) (u, s)).1 =
    with_stack (stack u) (Nat.min (pointer u + n) (length (stack u))) u.
Proof.
  intros Hp. induction n as [|n IH].
  - cbn. rewrite Nat.add_0_r, Nat.min_l by exact Hp. by destruct u.
  - cbn [Nat.iter nat_rect]. fold (Nat.iter n (step_forth lib) (u, s)).
    destruct (Nat.iter n (step_forth lib) (u, s)) as [u' s'].
    cbn [fst] in IH. subst u'. unfold step_forth. cbn [pointer with_stack stack].
    destruct (stack u !! Nat.min (pointer u + n) (length (stack u))) as [r|] eqn:E.
    + apply lookup_lt_Some in E. cbn [fst].
      by replace (Nat.min (pointer u + S n) (length (stack u)))
        with (S (Nat.min (pointer u + n) (length (stack u)))) by lia.
    + apply lookup_ge_None in E. cbn [fst].
      by replace (Nat.min (pointer u + S n) (length (stack u)))
        with (Nat.min (pointer u + n) (length (stack u))) by lia.
Qed.

End ReplayFacts.

Section FacadeReplay.

Variable lib : Backbone.

(** Replaying [n] steps and then announcing it: the undo manager and the
    entities are those after the steps, and the host has heard what the
    listeners of the event send. *)
Lemma replay_then_trigger step (n : nat) (ev : string) (u : UndoManager) (w : World) :
  um w = Some u ->
  em w = VObj (addr (host w)) ->
  (steps step n >> um_trigger ev) w =
    Some (tt, heard (emitted ev (listeners (Nat.iter n step (u, store w)).1))
                (set_store (Nat.iter n step (u, store w)).2
                   (set_um (Nat.iter n step (u, store w)).1 w))).
Proof.
  intros Hu Hem. unfold bindM at 1. rewrite (steps_run step n u w Hu).
  by apply um_trigger_heard.
Qed.

Lemma um_undo_events (magic : bool) (u : UndoManager) (w : World) :
  um w = Some u ->
  em w = VObj (addr (host w)) ->
  isAvailable_undo u = true ->
  exists w',
    um_undo lib magic w = Some (tt, w') /\
    triggered (host w') = triggered (host w) ++ emitted "undo" (listeners u).
Proof.
  intros Hu Hem Ha. unfold um_undo. unfold bindM at 1, the_um.
  rewrite Hu, Ha, (replay_then_trigger _ _ _ u w Hu Hem).
  eexists. split; [reflexivity|].
  cbn [host heard set_host set_store set_um triggered]. by rewrite iter_step_back.
Qed.

Lemma um_redo_events (magic : bool) (u : UndoManager) (w : World) :
  um w = Some u ->
  em w = VObj (addr (host w)) ->
  (pointer u <= length (stack u))%nat ->
  isAvailable_redo u = true ->
  exists w',
    um_redo lib magic w = Some (tt, w') /\
    triggered (host w') = triggered (host w) ++ emitted "redo" (listeners u).
Proof.
  intros Hu Hem Hp Ha. unfold um_redo. unfold bindM at 1, the_um.
  rewrite Hu, Ha, (replay_then_trigger _ _ _ u w Hu Hem).
  eexists. split; [reflexivity|].
  cbn [host heard set_host set_store set_um triggered].
  by rewrite iter_step_forth by exact Hp.
Qed.

Lemma um_undoAll_events (u : UndoManager) (w : World) :
  um w = Some u ->
  em w = VObj (addr (host w)) ->
  isAvailable_undo u = true ->
  exists w',
    um_undoAll lib w = Some (tt, w') /\
    triggered (host w') = triggered (host w) ++ emitted "undo" (listeners u).
Proof.
  intros Hu Hem Ha. unfold um_undoAll. unfold bindM at 1, the_um.
  rewrite Hu, Ha, (replay_then_trigger _ _ _ u w Hu Hem).
  eexists. split; [reflexivity|].
  cbn [host heard set_host set_store set_um triggered]. by rewrite iter_step_back.
Qed.

Lemma um_redoAll_events (u : UndoManager) (w : World) :
  um w = Some u ->
  em w = VObj (addr (host w)) ->
  (pointer u <= length (stack u))%nat ->
  isAvailable_redo u = true ->
  exists w',
    um_redoAll lib w = Some (tt, w') /\
    triggered (host w') = triggered (host w) ++ emitted "redo" (listeners u).
Proof.
  intros Hu Hem Hp Ha. unfold um_redoAll. unfold bindM at 1, the_um.
  rewrite Hu, Ha, (replay_then_trigger _ _ _ u w Hu Hem).
  eexists. split; [reflexivity|].
  cbn [host heard set_host set_store set_um triggered].
  by rewrite iter_step_forth by exact Hp.
Qed.

(** C9: [init] subscribes the refresh listener to ['undo redo'] and a
    forwarding listener to each of ['undo'] and ['redo'].  With these
    listeners, an undo that has something to undo ([undo()] outside an edit
    session, or [undoAll()]) makes the host hear the refresh signal
    ([component:toggled], [change:canvasOffset]) and then [undo]; a redo
    likewise makes it hear the refresh signal and then [redo]. *)
Theorem undo_redo_events_reach_host
    (all : option bool) (w : World) (u : UndoManager) :
  um w = Some u ->
  listeners u = init_listeners ->
  em w = VObj (addr (host w)) ->
  (pointer u <= length (stack u))%nat ->
  (forall opts w0, exists w1 u1,
     init opts w0 = Some (RThis, w1) /\ um w1 = Some u1 /\
     listeners u1 = init_listeners) /\
  (editing (host w) = false -> isAvailable_undo u = true ->
   exists w',
     undo lib all w = Some (RThis, w') /\
     triggered (host w') =
       triggered (host w) ++ ["component:toggled"; "change:canvasOffset"; "undo"]%string) /\
  (editing (host w) = false -> isAvailable_redo u = true ->
   exists w',
     redo lib all w = Some (RThis, w') /\
     triggered (host w') =
       triggered (host w) ++ ["component:toggled"; "change:canvasOffset"; "redo"]%string) /\
  (isAvailable_undo u = true ->
   exists w',
     undoAll lib w = Some (RThis, w') /\
     triggered (host w') =
       triggered (host w) ++ ["component:toggled"; "change:canvasOffset"; "undo"]%string) /\
  (isAvailable_redo u = true ->
   exists w',
     redoAll lib w = Some (RThis, w') /\
     triggered (host w') =
       triggered (host w) ++ ["component:toggled"; "change:canvasOffset"; "redo"]%string).
Proof.
  intros Hu Hl Hem Hp. split; [|split; [|split; [|split]]].
  - intros opts w0.
    destruct (init_spec opts w0)
      as (w1 & u1 & Hi & _ & _ & _ & _ & _ & _ & Hu1 & _ & _ & _ & Hl1).
    by exists w1, u1.
  - intros Hed Ha.
    destruct (um_undo_events (default true all) u w Hu Hem Ha) as (w' & Hr & Ht).
    exists w'. unfold undo. unfold bindM at 1.
    rewrite em_isEditing_run by exact Hem. rewrite Hed. cbn [negb].
    unfold bindM. rewrite Hr. split; [reflexivity|]. by rewrite Ht, Hl.
  - intros Hed Ha.
    destruct (um_redo_events (default true all) u w Hu Hem Hp Ha) as (w' & Hr & Ht).
    exists w'. unfold redo. unfold bindM at 1.
    rewrite em_isEditing_run by exact Hem. rewrite Hed. cbn [negb].
    unfold bindM. rewrite Hr. split; [reflexivity|]. by rewrite Ht, Hl.
  - intros Ha. destruct (um_undoAll_events u w Hu Hem Ha) as (w' & Hr & Ht).
    exists w'. unfold undoAll, bindM. rewrite Hr.
    split; [reflexivity|]. by rewrite Ht, Hl.
  - intros Ha. destruct (um_redoAll_events u w Hu Hem Hp Ha) as (w' & Hr & Ht).
    exists w'. unfold redoAll, bindM. rewrite Hr.
    split; [reflexivity|]. by rewrite Ht, Hl.
Qed.

End FacadeReplay.

(** ** Destruction *)

(** [destroy()] clears the stack, drops the registrations and replaces
    [this.em]; the four assignments of its loop go to the callback's
    parameter, so the closure variables keep what they held. *)
Lemma destroy_spec (w : World) (u : UndoManager) :
  um w = Some u ->
  destroy w =
    Some (RUndefined,
          {| em := em w;
             um := Some (um_unregisterAll (um_clear u));
             config := config w;
             beforeCache := beforeCache w;
             this_em := VObj (4 + next_ref w);
             host := host w;
             store := store w;
             next_ref := 5 + next_ref w |}).
Proof.
  destruct w as [e m c b t h s n]. cbn [um]. intros ->. reflexivity.
Qed.

(** C8, at a failing input: a module initialised with the host's editor
    model, holding a cached snapshot, is destroyed.  The stack is cleared
    and the registrations are dropped, but [em] still refers to the host,
    [getConfig()] still returns the configuration, [getInstance()] still
    returns the undo manager, the cache still holds its snapshot, and the
    facade still answers calls. *)
Theorem destroy_keeps_closure_variables :
  exists w' u',
    destroy (example_world false (Some (previousAttributes entityA)) example_stack 3)
      = Some (RUndefined, w') /\
    um w' = Some u' /\ stack u' = [] /\ pointer u' = O /\ registered u' = [] /\
    this_em w' = VObj 6 /\
    em w' = VObj 0 /\
    getConfig w' = Some (RConfig (Some example_config), w') /\
    getInstance w' = Some (RInstance (Some u'), w') /\
    beforeCache w' = Some (previousAttributes entityA) /\
    hasUndo w' = Some (RBool false, w') /\
    (fst <$> add 1 w') = Some RThis /\
    (fst <$> undo example_lib None w') = Some RThis.
Proof.
  do 2 eexists. split.
  - apply (destroy_spec _ (example_manager example_stack 3)). reflexivity.
  - repeat (split; [reflexivity|]). reflexivity.
Qed.

(** ** Instances *)

Lemma capture_carries_snapshot_of_run_opener_witness :
  skips (Some avoidStore) = true /\
  skips None = false /\
  fst (run_calls ([(OnChange, entityB, None)]
                  ++ [(OnCustom, entityA, Some avoidStore);
                      (OnCustom, entityB, Some avoidStore)]
                  ++ (OnCustom, entityA, None) :: []) None) !! 3%nat
    = Some (Some (own_capture OnCustom entityA)).
Proof.
  split; [reflexivity|]. split; [reflexivity|].
  destruct (capture_carries_snapshot_of_run_opener
              [(OnChange, entityB, None)]
              [(OnCustom, entityA, Some avoidStore);
               (OnCustom, entityB, Some avoidStore)] []
              OnCustom entityA None) as [H _].
  - right. exists [], (OnChange, entityB, None). split; reflexivity.
  - repeat constructor.
  - reflexivity.
  - exact H.
Defined.

Lemma suppressed_snapshot_reaches_next_capture_witness :
  skips (Some noUndo) = true /\
  skips (Some avoidStore) = true /\
  skips None = false /\
  call OnChange entityA (Some noUndo) None
    = (None, Some (previousAttributes entityA)) /\
  call OnCustom entityB None (Some (previousAttributes entityA))
    = (Some (capture_with (previousAttributes entityA) OnCustom entityB), None) /\
  run_calls ((OnChange, entityA, Some noUndo)
               :: [(OnCustom, entityB, Some avoidStore)]
               ++ [(OnCustom, entityB, None)]) None
    = (None :: (const None <$> [(OnCustom, entityB, Some avoidStore)])
            ++ [Some (capture_with (previousAttributes entityA) OnCustom entityB)],
       None).
Proof.
  split; [reflexivity|]. split; [reflexivity|]. split; [reflexivity|].
  apply (suppressed_snapshot_reaches_next_capture OnChange OnCustom
           entityA entityB (Some noUndo) None
           [(OnCustom, entityB, Some avoidStore)]);
    [reflexivity | repeat constructor | reflexivity].
Defined.

Lemma undo_redo_events_reach_host_witness :
  listeners (example_manager example_stack 2) = init_listeners /\
  isAvailable_undo (example_manager example_stack 2) = true /\
  isAvailable_redo (example_manager example_stack 2) = true /\
  (exists w',
     undo example_lib None (example_world false None example_stack 2)
       = Some (RThis, w') /\
     triggered (host w')
       = ["component:toggled"; "change:canvasOffset"; "undo"]%string) /\
  (exists w',
     redo example_lib None (example_world false None example_stack 2)
       = Some (RThis, w') /\
     triggered (host w')
       = ["component:toggled"; "change:canvasOffset"; "redo"]%string).
Proof.
  split; [reflexivity|]. split; [reflexivity|]. split; [reflexivity|].
  destruct (undo_redo_events_reach_host example_lib None
              (example_world false None example_stack 2)
              (example_manager example_stack 2))
    as (_ & Hundo & Hredo & _); [reflexivity | reflexivity | reflexivity | cbn; lia |].
  split; [apply Hundo; reflexivity | apply Hredo; reflexivity].
Defined.

(** ** Scenarios *)

(** With a bound of 2, pushing three records keeps the two most recent and
    leaves the pointer at 2. *)
Example push_evicts_oldest :
  let u0 := new_UndoManager {[ "maximumStackLength" := VNum 2 ]} in
  let u3 := push (example_record entityA 3)
              (push (example_record entityB 2)
                 (push (example_record entityA 1) u0)) in
  stack u3 = [example_record entityB 2; example_record entityA 3] /\
  pointer u3 = 2%nat.
Proof. split; reflexivity. Qed.

(** A style change on a tracked entity is recorded with the entity's own
    previous attributes; [undo()] then restores them and makes a redo
    available. *)
Example record_then_undo :
  let n := AttrChanged "style" entityA (VStr "bold") ∅ in
  match record_change n (example_world false None [] 0) with
  | Some (_, w1) =>
      Some (stack <$> um w1, pointer <$> um w1,
            match undo example_lib None w1 with
            | Some (r, w2) =>
                Some (r, pointer <$> um w2, attributes <$> store w2 !! 1%nat,
                      fst <$> hasUndo w2, fst <$> hasRedo w2)
            | None => None
            end)
  | None => None
  end =
  Some (Some [example_record entityA 3], Some 1%nat,
        Some (RThis, Some O, Some {[ "color" := VStr "red" ]},
              Some (RBool false), Some (RBool true))).
Proof. vm_compute. reflexivity. Qed.

(** The same [undo()] outside and inside an edit session: the pointer moves
    by one logical operation, or not at all. *)
Example undo_guard_contrast :
  (exists w', undo example_lib None (example_world false None example_stack 3)
                = Some (RThis, w') /\ (pointer <$> um w') = Some 2%nat) /\
  (exists w', undo example_lib None (example_world true None example_stack 3)
                = Some (RThis, w') /\ (pointer <$> um w') = Some 3%nat).
Proof. split; eexists; split; reflexivity. Qed.

(** One logical operation spans the records that share a group tag. *)
Example undo_walks_one_group :
  exists w', undo example_lib None (example_world false None example_stack 2)
               = Some (RThis, w') /\ (pointer <$> um w') = Some O.
Proof. eexists; split; reflexivity. Qed.

(** The grouped view of a stack with tags 1, 1, 2. *)
Example getStackGroup_example :
  getStackGroup (example_world false None example_stack 3) =
    Some (RGroup [example_record entityA 1; example_record entityA 2],
          example_world false None example_stack 3).
Proof. reflexivity. Qed.

(** * Further properties *)

(** ** The grouped view *)

Lemma first_per_group_tags (st : list ChangeRecord) (seen : list Z) (g : Z) :
  g ∈ tags (first_per_group seen st) <-> g ∈ tags st /\ g ∉ seen.
Proof.
  unfold tags. revert seen. induction st as [|r st IH]; intros seen;
    cbn [first_per_group].
  - rewrite fmap_nil, elem_of_nil. naive_solver.
  - destruct (decide (magicFusionIndex r ∈ seen)) as [Hin|Hout].
    + rewrite bool_decide_eq_true_2 by exact Hin.
      rewrite IH, fmap_cons, elem_of_cons. naive_solver.
    + rewrite bool_decide_eq_false_2 by exact Hout.
      rewrite !fmap_cons, !elem_of_cons, IH, elem_of_cons.
      destruct (decide (g = magicFusionIndex r)); naive_solver.
Qed.

Lemma first_per_group_NoDup (st : list ChangeRecord) (seen : list Z) :
  NoDup (tags (first_per_group seen st)).
Proof.
  revert seen. induction st as [|r st IH]; intros seen; cbn [first_per_group].
  - constructor.
  - destruct (bool_decide (magicFusionIndex r ∈ seen)); [apply IH|].
    unfold tags. rewrite fmap_cons. constructor; [|apply IH].
    fold (tags (first_per_group (magicFusionIndex r :: seen) st)).
    rewrite first_per_group_tags, elem_of_cons. naive_solver.
Qed.

(** A stack whose tags are all new and pairwise distinct is kept whole. *)
Lemma first_per_group_id (st : list ChangeRecord) (seen : list Z) :
  NoDup (tags st) -> (forall g, g ∈ tags st -> g ∉ seen) ->
  first_per_group seen st = st.
Proof.
  unfold tags. revert seen. induction st as [|r st IH]; intros seen Hnd Hs;
    [reflexivity|].
  rewrite fmap_cons in Hnd, Hs. apply NoDup_cons in Hnd as [Hr Hnd].
  cbn [first_per_group].
  rewrite bool_decide_eq_false_2 by (apply Hs, elem_of_cons; by left).
  f_equal. apply IH; [exact Hnd|]. intros g Hg.
  rewrite elem_of_cons. intros [->|Hin]; [done|].
  revert Hin. apply Hs, elem_of_cons. by right.
Qed.

(** X1: the records [getStackGroup()] returns carry pairwise distinct group
    tags, and every group tag of the stack is the tag of one of them: one
    representative per group. *)
Theorem getStackGroup_one_per_group (st : list ChangeRecord) :
  NoDup (tags (stack_group st)) /\
  forall g, g ∈ tags (stack_group st) <-> g ∈ tags st.
Proof.
  rewrite stack_group_spec. split; [apply first_per_group_NoDup|].
  intros g. rewrite first_per_group_tags. pose proof (not_elem_of_nil g).
  naive_solver.
Qed.

(** X2: grouping is idempotent; the grouped view of a grouped view is the
    grouped view itself. *)
Theorem getStackGroup_idempotent (st : list ChangeRecord) :
  stack_group (stack_group st) = stack_group st.
Proof.
  rewrite !stack_group_spec. apply first_per_group_id.
  - apply first_per_group_NoDup.
  - intros g _. apply not_elem_of_nil.
Qed.

Lemma first_per_group_snoc (st : list ChangeRecord) (r : ChangeRecord)
    (seen : list Z) :
  first_per_group seen (st ++ [r]) =
  first_per_group seen st ++
    (if bool_decide (magicFusionIndex r ∈ seen ++ tags st) then [] else [r]).
Proof.
  unfold tags. revert seen. induction st as [|a st IH]; intros seen.
  - cbn [app first_per_group fmap list_fmap]. rewrite app_nil_r.
    by destruct (bool_decide (magicFusionIndex r ∈ seen)).
  - cbn [app first_per_group]. rewrite fmap_cons.
    destruct (decide (magicFusionIndex a ∈ seen)) as [Hin|Hout].
    + rewrite !bool_decide_eq_true_2 by exact Hin. rewrite IH. f_equal.
      rewrite (bool_decide_ext
                 (magicFusionIndex r ∈ seen ++ (magicFusionIndex <$> st))
                 (magicFusionIndex r
                    ∈ seen ++ magicFusionIndex a :: (magicFusionIndex <$> st)));
        [done|].
      rewrite !elem_of_app, elem_of_cons.
      split; [tauto|]. intros [?|[Heq|?]]; [tauto | left; by rewrite Heq | tauto].
    + rewrite !bool_decide_eq_false_2 by exact Hout. rewrite IH.
      cbn [app]. do 2 f_equal.
      rewrite (bool_decide_ext
                 (magicFusionIndex r
                    ∈ magicFusionIndex a :: seen ++ (magicFusionIndex <$> st))
                 (magicFusionIndex r
                    ∈ seen ++ magicFusionIndex a :: (magicFusionIndex <$> st)));
        [done|].
      rewrite !elem_of_app, !elem_of_cons, elem_of_app. tauto.
Qed.

(** X3: a record pushed on top of the stack never changes the
    representatives of the groups below it: the grouped view grows by the new
    record when its tag is new, and stays as it is otherwise. *)
Theorem getStackGroup_snoc (st : list ChangeRecord) (r : ChangeRecord) :
  stack_group (st ++ [r]) =
  stack_group st ++
    (if bool_decide (magicFusionIndex r ∈ tags st) then [] else [r]).
Proof. rewrite !stack_group_spec. apply first_per_group_snoc. Qed.

Lemma first_per_group_elem (st : list ChangeRecord) (seen : list Z)
    (r : ChangeRecord) :
  r ∈ first_per_group seen st <->
  exists i, st !! i = Some r /\ magicFusionIndex r ∉ seen ++ tags (take i st).
Proof.
  unfold tags. revert seen. induction st as [|a st IH]; intros seen;
    cbn [first_per_group].
  - rewrite elem_of_nil. split; [done|]. by intros (i & Hi & _).
  - destruct (decide (magicFusionIndex a ∈ seen)) as [Hin|Hout].
    + rewrite bool_decide_eq_true_2 by exact Hin. rewrite IH. split.
      * intros (i & Hi & Hn). exists (S i). split; [exact Hi|].
        cbn [take]. rewrite fmap_cons. revert Hn.
        rewrite !elem_of_app, elem_of_cons.
        intros Hn [?|[Heq|?]]; [tauto | rewrite Heq in Hn; tauto | tauto].
      * intros ([|i] & Hi & Hn).
        -- cbn in Hi. injection Hi as ->. exfalso. apply Hn.
           rewrite elem_of_app. by left.
        -- exists i. split; [exact Hi|]. revert Hn. cbn [take].
           rewrite fmap_cons, !elem_of_app, elem_of_cons. tauto.
    + rewrite bool_decide_eq_false_2 by exact Hout.
      rewrite elem_of_cons, IH. split.
      * intros [->|(i & Hi & Hn)].
        -- exists O. split; [reflexivity|]. cbn [take]. rewrite fmap_nil.
           by rewrite app_nil_r.
        -- exists (S i). split; [exact Hi|]. revert Hn. cbn [take].
           rewrite fmap_cons, !elem_of_app, !elem_of_cons. tauto.
      * intros ([|i] & Hi & Hn).
        -- cbn in Hi. injection Hi as ->. by left.
        -- right. exists i. split; [exact Hi|]. revert Hn. cbn [take].
           rewrite fmap_cons, !elem_of_app, !elem_of_cons. tauto.
Qed.

(** X4: the representative of a group is its first record: a record is in
    the grouped view exactly when it sits at a position of the stack before
    which no record carries its tag. *)
Theorem getStackGroup_keeps_first (st : list ChangeRecord) (r : ChangeRecord) :
  r ∈ stack_group st <->
  exists i, st !! i = Some r /\ magicFusionIndex r ∉ tags (take i st).
Proof. rewrite stack_group_spec. apply first_per_group_elem. Qed.

(** X5: the grouped view is the whole stack exactly when no two records
    share a group tag. *)
Theorem getStackGroup_fixpoint (st : list ChangeRecord) :
  stack_group st = st <-> NoDup (tags st).
Proof.
  split.
  - intros H. rewrite <- H, stack_group_spec. apply first_per_group_NoDup.
  - intros H. rewrite stack_group_spec. apply first_per_group_id; [exact H|].
    intros g _. apply not_elem_of_nil.
Qed.

(** ** The condition, in full *)

Lemma indexOf_from_found (l : list value) (x : value) (i : Z) :
  0 <= i ->
  (0 <=? indexOf_from i l x) = true <->
  exists y, y ∈ l /\ strict_eq y x = true.
Proof.
  revert i. induction l as [|y l IH]; intros i Hi; cbn [indexOf_from].
  - split; [intros H; apply Z.leb_le in H; lia|].
    intros (y & Hy & _). by apply elem_of_nil in Hy.
  - destruct (strict_eq y x) eqn:E.
    + split; [|intros _; apply Z.leb_le; lia].
      intros _. exists y. split; [apply elem_of_cons; by left | exact E].
    + rewrite IH by lia. split.
      * intros (z & Hz & Hs). exists z. split; [|exact Hs].
        apply elem_of_cons. by right.
      * intros (z & Hz & Hs). apply elem_of_cons in Hz as [->|Hz].
        -- congruence.
        -- by exists z.
Qed.

Lemma some_const {A} (b : bool) (l : list A) :
  JS.some (fun _ => b) l = b && negb (bool_decide (l = [])).
Proof.
  destruct l as [|a l]; [by rewrite andb_false_r|].
  cbn. destruct b; [reflexivity|]. apply some_const_false.
Qed.

Lemma keys_nil (o : jsobj) : keys o = [] <-> o = ∅.
Proof.
  unfold keys. rewrite <- map_to_list_empty_iff. split.
  - apply fmap_nil_inv.
  - by intros ->.
Qed.

(** X6: the condition of the ['change'] kind is true in three cases only:
    the marker is the boolean [true]; the marker is a Boolean wrapper
    object, which is truthy whatever it wraps; or the marker is an array that
    holds itself and at least one attribute changed.  Every other marker
    (absent, [false], [null], a number, a string, any other object, an array
    that does not hold itself) gives false, and which attribute changed never
    matters. *)
Theorem condition_true_iff (e : Entity) :
  condition e = true <->
  get e "_undo" = VBool true \/
  (exists r b, get e "_undo" = VBoolObj r b) \/
  exists r items,
    get e "_undo" = VArr r items /\
    changedAttributes e <> ∅ /\
    exists y, y ∈ items /\ strict_eq y (VArr r items) = true.
Proof.
  unfold condition. destruct (get e "_undo") as [| |b|n|s|r items|r|r b] eqn:E;
    cbn [truthy isBoolean isArray].
  - split; [done|]. intros [?|[(? & ? & ?)|(? & ? & ? & _)]]; done.
  - split; [done|]. intros [?|[(? & ? & ?)|(? & ? & ? & _)]]; done.
  - destruct b; [by split; [left|] |].
    split; [done|]. intros [?|[(? & ? & ?)|(? & ? & ? & _)]]; done.
  - destruct (negb (n =? 0));
      (split; [done|]; intros [?|[(? & ? & ?)|(? & ? & ? & _)]]; done).
  - destruct (negb (String.eqb s EmptyString));
      (split; [done|]; intros [?|[(? & ? & ?)|(? & ? & ? & _)]]; done).
  - rewrite some_const. cbn [arr_indexOf]. unfold indexOf. split.
    + intros H. right. right. exists r, items. split; [reflexivity|].
      destruct (0 <=? indexOf_from 0 items (VArr r items)) eqn:Hi; [|done].
      cbn [andb] in H. split.
      * intros Hc. apply keys_nil in Hc. rewrite Hc in H.
        by rewrite bool_decide_eq_true_2 in H.
      * by apply (indexOf_from_found items (VArr r items) 0).
    + intros [?|[(? & ? & ?)|(r' & items' & [= <- <-] & Hc & Hy)]]; try done.
      apply (indexOf_from_found items (VArr r items) 0) in Hy; [|lia].
      rewrite Hy. cbn [andb].
      rewrite bool_decide_eq_false_2; [reflexivity|].
      intros Hk. by apply Hc, keys_nil.
  - split; [done|]. intros [?|[(? & ? & ?)|(? & ? & ? & _)]]; done.
  - split; [|done]. intros _. right. left. by exists r, b.
Qed.

(** ** The add and remove handlers *)

(** X14: ['remove'].on is ['add'].on with [before] and [after] exchanged:
    both return nothing for the same options, and otherwise both record the
    collection as object and a copy of the options, the model being [after]
    for an addition and [before] for a removal. *)
Theorem on_remove_mirrors_on_add
    (model : Entity) (collection : nat) (opts : option jsobj) :
  on_remove model collection opts = mirror <$> on_add model collection opts /\
  (on_add model collection opts = None <-> skips opts = true) /\
  (skips opts = false ->
   on_add model collection opts =
     Some {| object := collection; before := PUndefined;
             after := PModel (cid model); options := Some (or_empty opts) |}).
Proof.
  unfold on_remove, on_add, skips.
  destruct (truthy (hasSkip (or_empty opts))); cbn [fmap option_fmap option_map].
  - split; [reflexivity|]. split; [done|]. discriminate.
  - split; [reflexivity|]. split; [split; discriminate|]. intros _.
    do 2 f_equal. unfold spread. f_equal. apply (right_id_L ∅ (∪)).
Qed.

(** ** The cache across a sequence of notifications *)

(** X15: the cache always holds the snapshot of the notification that
    opened the current run of suppressed notifications: after a run of
    suppressed notifications that starts the sequence or follows a completed
    capture, the cache holds the previous attributes of the run's first
    entity, whatever entities the later notifications of the run were on. *)
Theorem cache_holds_first_of_run
    (pre rest : list (handler * Entity * option jsobj))
    (h : handler) (e : Entity) (o : option jsobj) :
  (pre = [] \/ exists pre' n, pre = pre' ++ [n] /\ skips n.2 = false) ->
  skips o = true ->
  Forall (fun n => skips n.2 = true) rest ->
  snd (run_calls (pre ++ (h, e, o) :: rest) None) = Some (previousAttributes e).
Proof.
  intros Hpre Ho Hrest. rewrite run_calls_app.
  assert (snd (run_calls pre None) = None) as Hc.
  { destruct Hpre as [->|(pre' & [[h' e'] o'] & -> & Hn)]; [reflexivity|].
    by apply run_calls_snoc_captured. }
  destruct (run_calls pre None) as [r1 c1]. cbn [snd] in Hc. subst c1.
  cbn [run_calls]. rewrite call_skipped by exact Ho. cbn [default from_option].
  by rewrite run_calls_skipped.
Qed.

Lemma cache_holds_first_of_run_witness :
  skips None = false /\
  skips (Some avoidStore) = true /\
  skips (Some noUndo) = true /\
  snd (run_calls ([(OnChange, entityB, None)]
                  ++ (OnCustom, entityA, Some avoidStore)
                  :: [(OnChange, entityB, Some noUndo)]) None)
    = Some (previousAttributes entityA).
Proof.
  split; [reflexivity|]. split; [reflexivity|]. split; [reflexivity|].
  apply (cache_holds_first_of_run [(OnChange, entityB, None)]
           [(OnChange, entityB, Some noUndo)] OnCustom entityA (Some avoidStore)).
  - right. exists [], (OnChange, entityB, None). split; reflexivity.
  - reflexivity.
  - repeat constructor.
Defined.

(** ** Initialisation *)

(** X7: [init] passes every option of the caller through to the
    configuration, [maximumStackLength] excepted, and takes the editor handle
    from the option [em]: afterwards the closure variable [em] and the
    property [this.em] both hold [opts.em] ([undefined] when omitted). *)
Theorem init_passes_options_through (opts : option jsobj) (w : World) :
  exists w' cfg,
    init opts w = Some (RThis, w') /\
    getConfig w' = Some (RConfig (Some cfg), w') /\
    (forall k, k <> "maximumStackLength"%string -> cfg !! k = or_empty opts !! k) /\
    em w' = prop (or_empty opts) "em" /\
    this_em w' = em w'.
Proof.
  destruct (init_spec opts w) as (w' & u & Hi & Hc & He & Ht & _).
  exists w', (spread (or_empty opts) configDef).
  rewrite getConfig_spec, Hc, He, Ht. repeat split; try done.
  - intros k Hk. rewrite spread_lookup. unfold configDef.
    by rewrite lookup_singleton_ne.
  - unfold prop. rewrite spread_lookup. unfold configDef.
    by rewrite lookup_singleton_ne.
Qed.

(** X8: the options [init] hands to the undo manager's constructor are the
    caller's, over the defaults [track: true] and [register: []]: a caller's
    [track] or [register] replaces the default, any other option is passed
    as it is, and [maximumStackLength] is 500 whatever the caller gave. *)
Theorem init_constructor_options (opts : option jsobj) (w : World) :
  exists w' u,
    init opts w = Some (RThis, w') /\
    um w' = Some u /\
    attrs u !! "maximumStackLength" = Some (VNum 500) /\
    attrs u !! "track" = Some (default (VBool true) (or_empty opts !! "track")) /\
    attrs u !! "register" =
      Some (default (VArr (next_ref w) []) (or_empty opts !! "register")) /\
    forall k,
      k <> "maximumStackLength"%string -> k <> "track"%string ->
      k <> "register"%string ->
      attrs u !! k = or_empty opts !! k.
Proof.
  destruct (init_spec opts w)
    as (w' & u & Hi & _ & _ & _ & _ & _ & _ & Hu & Ha & _).
  exists w', u. rewrite Ha. split; [exact Hi|]. split; [exact Hu|].
  unfold configDef. split; [|split; [|split]].
  - by rewrite !spread_lookup, lookup_singleton_eq.
  - rewrite !spread_lookup, lookup_singleton_ne by done.
    destruct (or_empty opts !! "track"); [done|].
    by rewrite lookup_insert_eq.
  - rewrite !spread_lookup, lookup_singleton_ne by done.
    destruct (or_empty opts !! "register"); [done|].
    rewrite lookup_insert_ne by done. by rewrite lookup_singleton_eq.
  - intros k H1 H2 H3. rewrite !spread_lookup, lookup_singleton_ne by done.
    destruct (or_empty opts !! k); [done|].
    rewrite lookup_insert_ne by done. by rewrite lookup_singleton_ne.
Qed.

Lemma undoTypes_um_on names cb u : undoTypes (um_on names cb u) = undoTypes u.
Proof. reflexivity. Qed.

Lemma undoTypes_register_type k t u :
  undoTypes (register_type k t u) = <[k := t]> (undoTypes u).
Proof. reflexivity. Qed.

Lemma undoTypes_new a : undoTypes (new_UndoManager a) = ∅.
Proof. reflexivity. Qed.

(** X9: whatever the module held before, after [init] the undo manager
    knows exactly seven kinds through this module: ['change'], the only one
    with a condition, ['add'], ['remove'], and the custom kind under
    [change:] followed by each of [style], [attributes], [content] and
    [src]. *)
Theorem init_registers_seven_kinds (opts : option jsobj) (w : World) :
  exists w' u,
    init opts w = Some (RThis, w') /\
    um w' = Some u /\
    undoTypes u = init_undoTypes /\
    size (undoTypes u) = 7%nat /\
    (forall k, undoTypes u !! k = Some ChangeType <-> k = "change"%string) /\
    (forall ev, ev ∈ events ->
       undoTypes u !! String.append "change:" ev = Some CustomType).
Proof.
  unfold init. set (cfg := spread (or_empty opts) configDef).
  rewrite !bind_modify, bind_new_array, bind_modify.
  cbn [forEach events]. rewrite !bind_update_um.
  do 2 eexists. split; [reflexivity|]. split; [reflexivity|].
  rewrite !undoTypes_um_on, !undoTypes_register_type, undoTypes_new.
  assert (<["change:src"%string := CustomType]>
            (<["change:content"%string := CustomType]>
               (<["change:attributes"%string := CustomType]>
                  (<["change:style"%string := CustomType]>
                     (<["remove"%string := RemoveType]>
                        (<["add"%string := AddType]>
                           (<["change"%string := ChangeType]> ∅))))))
          = init_undoTypes) as Hk by (vm_compute; reflexivity).
  change (String.append "change:" "src") with "change:src"%string.
  change (String.append "change:" "content") with "change:content"%string.
  change (String.append "change:" "attributes") with "change:attributes"%string.
  change (String.append "change:" "style") with "change:style"%string.
  rewrite Hk. clear Hk.
  split; [reflexivity|]. split; [vm_compute; reflexivity|]. split.
  - intros k. unfold init_undoTypes. split.
    + intros Hkt.
      repeat (apply lookup_insert_Some in Hkt as [[Hk Ht]|[? Hkt]];
              [first [discriminate Ht | by rewrite <- Hk]|]).
      apply lookup_singleton_Some in Hkt as [_ Ht]. discriminate Ht.
    + intros ->. by rewrite lookup_insert_eq.
  - intros ev Hev. unfold events in Hev.
    repeat (apply elem_of_cons in Hev as [->|Hev];
            [vm_compute; reflexivity|]).
    by apply elem_of_nil in Hev.
Qed.

(** ** What the facade never writes *)

Lemma keeps_ret {A} (a : A) : keeps_cache (retM a).
Proof. intros w r w' [= _ <-]. reflexivity. Qed.

Lemma keeps_bind {A B} (m : M A) (k : A -> M B) :
  keeps_cache m -> (forall a, keeps_cache (k a)) -> keeps_cache (bindM m k).
Proof.
  intros Hm Hk w r w' H. unfold bindM in H.
  destruct (m w) as [[a w1]|] eqn:E; [|discriminate].
  rewrite (Hk a w1 r w' H). by apply (Hm w a w1).
Qed.

Lemma keeps_reads {A} (f : World -> A) : keeps_cache (reads f).
Proof. intros w r w' [= _ <-]. reflexivity. Qed.

Lemma keeps_modify (f : World -> World) :
  (forall w, beforeCache (f w) = beforeCache w) -> keeps_cache (modify f).
Proof. intros Hf w r w' [= _ <-]. apply Hf. Qed.

Lemma keeps_the_um : keeps_cache the_um.
Proof.
  intros w r w' H. unfold the_um in H. destruct (um w); [|discriminate].
  by injection H as _ <-.
Qed.

Lemma keeps_the_host : keeps_cache the_host.
Proof.
  intros w r w' H. unfold the_host in H.
  destruct (em w); try discriminate.
  destruct (Nat.eqb _ _); [|discriminate]. by injection H as _ <-.
Qed.

Lemma keeps_new_object : keeps_cache new_object.
Proof. intros w r w' [= _ <-]. reflexivity. Qed.

Lemma keeps_new_array : keeps_cache new_array.
Proof. intros w r w' [= _ <-]. reflexivity. Qed.

Lemma keeps_update_um (f : UndoManager -> UndoManager) : keeps_cache (update_um f).
Proof.
  apply keeps_bind; [apply keeps_the_um|]. intros u. by apply keeps_modify.
Qed.

Lemma keeps_forEach {A} (f : A -> M unit) (l : list A) :
  (forall x, keeps_cache (f x)) -> keeps_cache (forEach f l).
Proof.
  intros Hf. induction l as [|x l IH]; cbn [forEach]; [apply keeps_ret|].
  apply keeps_bind; [apply Hf | intros _; exact IH].
Qed.

Lemma keeps_em_trigger (names : string) : keeps_cache (em_trigger names).
Proof.
  apply keeps_bind; [apply keeps_the_host|]. intros h. by apply keeps_modify.
Qed.

Lemma keeps_em_isEditing : keeps_cache em_isEditing.
Proof.
  apply keeps_bind; [apply keeps_the_host | intros h; apply keeps_ret].
Qed.

Lemma keeps_run_listeners (ev : string) (ls : list (string * callback)) :
  keeps_cache (run_listeners ev ls).
Proof.
  induction ls as [|[n [names]] ls IH]; cbn [run_listeners]; [apply keeps_ret|].
  apply keeps_bind; [|intros _; exact IH].
  destruct (String.eqb n ev); [apply keeps_em_trigger | apply keeps_ret].
Qed.

Lemma keeps_um_trigger (ev : string) : keeps_cache (um_trigger ev).
Proof.
  apply keeps_bind; [apply keeps_the_um | intros u; apply keeps_run_listeners].
Qed.

Lemma keeps_steps step (n : nat) : keeps_cache (steps step n).
Proof.
  apply keeps_bind; [apply keeps_the_um|]. intros u.
  apply keeps_bind; [apply keeps_reads|]. intros s.
  destruct (Nat.iter n step (u, s)) as [u' s'].
  apply keeps_bind; [by apply keeps_modify | intros _; by apply keeps_modify].
Qed.

Ltac keeps_step :=
  first [ apply keeps_ret | apply keeps_reads | apply keeps_the_um
        | apply keeps_update_um | apply keeps_um_trigger | apply keeps_steps
        | apply keeps_em_isEditing | apply keeps_new_object
        | apply keeps_new_array
        | apply keeps_modify; intros ?; reflexivity
        | apply keeps_forEach; intros ?
        | apply keeps_bind; [|intros ?]
        | match goal with |- keeps_cache (if ?b then _ else _) => destruct b end ].

(** X10: [beforeCache] is written by the capture handlers only.  No method
    of the facade, [init], [clear] and [destroy] included, changes it: a
    snapshot left by a suppressed notification survives all of them. *)
Theorem facade_keeps_cache
    (lib : Backbone) (opts : option jsobj) (entity : nat) (all : option bool) :
  keeps_cache (init opts) /\ keeps_cache getConfig /\
  keeps_cache (add entity) /\ keeps_cache (remove entity) /\
  keeps_cache removeAll /\ keeps_cache start /\ keeps_cache stop /\
  keeps_cache (undo lib all) /\ keeps_cache (undoAll lib) /\
  keeps_cache (redo lib all) /\ keeps_cache (redoAll lib) /\
  keeps_cache hasUndo /\ keeps_cache hasRedo /\ keeps_cache getStack /\
  keeps_cache getStackGroup /\ keeps_cache getPointer /\ keeps_cache clear /\
  keeps_cache getInstance /\ keeps_cache destroy.
Proof.
  repeat split.
  - unfold init. repeat keeps_step.
  - unfold getConfig. repeat keeps_step.
  - unfold add. repeat keeps_step.
  - unfold remove. repeat keeps_step.
  - unfold removeAll. repeat keeps_step.
  - unfold start. repeat keeps_step.
  - unfold stop. repeat keeps_step.
  - unfold undo, um_undo. repeat keeps_step.
  - unfold undoAll, um_undoAll. repeat keeps_step.
  - unfold redo, um_redo. repeat keeps_step.
  - unfold redoAll, um_redoAll. repeat keeps_step.
  - unfold hasUndo. repeat keeps_step.
  - unfold hasRedo. repeat keeps_step.
  - unfold getStack. repeat keeps_step.
  - unfold getStackGroup. repeat keeps_step.
  - unfold getPointer. repeat keeps_step.
  - unfold clear. repeat keeps_step.
  - unfold getInstance. repeat keeps_step.
  - unfold destroy, clear, removeAll, reset_param. repeat keeps_step.
Qed.

(** ** Before and without initialisation *)

Lemma the_um_none {B} (k : UndoManager -> M B) (w : World) :
  um w = None -> (let! u := the_um in k u) w = None.
Proof. intros H. unfold bindM, the_um. by rewrite H. Qed.

Lemma bind_none {A B} (m : M A) (k : A -> M B) (w : World) :
  m w = None -> bindM m k w = None.
Proof. intros H. unfold bindM. by rewrite H. Qed.

(** X11: before [init] the closure variable [um] is [undefined]:
    [getConfig()] and [getInstance()] answer with what the variables hold,
    and every method that goes through [um] throws. *)
Theorem facade_before_init (lib : Backbone) (entity : nat) (w : World) :
  um w = None ->
  getConfig w = Some (RConfig (config w), w) /\
  getInstance w = Some (RInstance None, w) /\
  add entity w = None /\ remove entity w = None /\ removeAll w = None /\
  start w = None /\ stop w = None /\
  undoAll lib w = None /\ redoAll lib w = None /\
  hasUndo w = None /\ hasRedo w = None /\
  getStack w = None /\ getStackGroup w = None /\ getPointer w = None /\
  clear w = None /\ destroy w = None.
Proof.
  intros H. split; [reflexivity|].
  split; [unfold getInstance, bindM, reads, retM; by rewrite H|].
  unfold add, remove, removeAll, start, stop, undoAll, redoAll, um_undoAll,
    um_redoAll, hasUndo, hasRedo, getStack, getStackGroup, getPointer, destroy,
    clear, update_um.
  repeat split;
    repeat first [ apply the_um_none; exact H | apply bind_none ].
Qed.

Lemma facade_before_init_witness :
  um (fresh_world host0 ∅ 1) = None /\
  getConfig (fresh_world host0 ∅ 1) = Some (RConfig None, fresh_world host0 ∅ 1) /\
  add 1 (fresh_world host0 ∅ 1) = None /\
  getStackGroup (fresh_world host0 ∅ 1) = None /\
  destroy (fresh_world host0 ∅ 1) = None.
Proof.
  split; [reflexivity|].
  destruct (facade_before_init example_lib 1 (fresh_world host0 ∅ 1) eq_refl)
    as (Hc & _ & Ha & _ & _ & _ & _ & _ & _ & _ & _ & _ & Hg & _ & _ & Hd).
  auto.
Defined.

(** X12: [init] takes the editor handle from [opts.em] and does not check
    it.  When the caller omits [em], [init] still returns [this], but every
    later [undo()] and [redo()] throws at [em.isEditing()]; [undoAll()] and
    [redoAll()], which never ask the editor, return [this] on the still
    empty history. *)
Theorem init_without_em
    (lib : Backbone) (opts : option jsobj) (all : option bool) (w : World) :
  or_empty opts !! "em" = None ->
  exists w',
    init opts w = Some (RThis, w') /\
    em w' = VUndefined /\
    undo lib all w' = None /\
    redo lib all w' = None /\
    undoAll lib w' = Some (RThis, w') /\
    redoAll lib w' = Some (RThis, w').
Proof.
  intros Hem.
  destruct (init_spec opts w)
    as (w' & u & Hi & _ & He & _ & _ & _ & _ & Hu & _ & Hs & Hp & _).
  assert (em w' = VUndefined) as He'.
  { rewrite He. unfold prop. rewrite spread_lookup. unfold configDef.
    rewrite lookup_singleton_ne by done. by rewrite Hem. }
  exists w'. split; [exact Hi|]. split; [exact He'|].
  assert (em_isEditing w' = None) as Hed.
  { unfold em_isEditing, bindM, the_host. by rewrite He'. }
  split; [unfold undo; by apply bind_none|].
  split; [unfold redo; by apply bind_none|].
  unfold undoAll, redoAll, um_undoAll, um_redoAll, bindM, the_um,
    isAvailable_undo, isAvailable_redo.
  rewrite Hu, Hs, Hp. by split.
Qed.

Lemma init_without_em_witness :
  or_empty None !! "em" = None /\
  exists w',
    init None (fresh_world host0 ∅ 1) = Some (RThis, w') /\
    em w' = VUndefined /\
    undo example_lib None w' = None /\
    redo example_lib None w' = None /\
    undoAll example_lib w' = Some (RThis, w') /\
    redoAll example_lib w' = Some (RThis, w').
Proof.
  split; [reflexivity|].
  apply (init_without_em example_lib None None (fresh_world host0 ∅ 1)).
  reflexivity.
Defined.

(** ** Destroying twice *)

(** X13: [destroy()] can be repeated.  The second call finds the undo
    manager still in place and returns like the first; between the two only
    [this.em] differs, a fresh object each time.  Neither call triggers an
    event on the host or touches an entity, and the closure variables [em],
    [config] and [beforeCache] hold after both what they held before. *)
Theorem destroy_twice (w : World) (u : UndoManager) :
  um w = Some u ->
  exists w1 w2,
    destroy w = Some (RUndefined, w1) /\
    destroy w1 = Some (RUndefined, w2) /\
    um w2 = um w1 /\
    this_em w1 = VObj (4 + next_ref w) /\
    this_em w2 = VObj (9 + next_ref w) /\
    em w2 = em w /\ config w2 = config w /\ beforeCache w2 = beforeCache w /\
    host w2 = host w /\ store w2 = store w.
Proof.
  intros Hu. do 2 eexists.
  split; [by apply (destroy_spec w u)|].
  split; [by apply (destroy_spec _ (um_unregisterAll (um_clear u)))|].
  repeat split.
Qed.

Lemma destroy_twice_witness :
  um (example_world false None example_stack 3)
    = Some (example_manager example_stack 3) /\
  exists w1 w2,
    destroy (example_world false None example_stack 3) = Some (RUndefined, w1) /\
    destroy w1 = Some (RUndefined, w2) /\
    um w2 = um w1 /\
    this_em w1 = VObj 6 /\ this_em w2 = VObj 11.
Proof.
  split; [reflexivity|].
  destruct (destroy_twice (example_world false None example_stack 3)
              (example_manager example_stack 3) eq_refl)
    as (w1 & w2 & H1 & H2 & H3 & H4 & H5 & _).
  exists w1, w2. auto.
Defined.

(** ** Entities with a list marker *)

(** X16: with the ['change'] kind as [init] registers it, a ['change']
    notification on an entity whose marker is a list of attribute names is
    never recorded, whatever changed and whatever its options; since the
    condition fails before the capture runs, not even the cache is
    touched. *)
Theorem listed_entity_change_never_recorded
    (w : World) (u : UndoManager) (e : Entity) (r : nat) (names : list string)
    (opts : jsobj) :
  um w = Some u ->
  undoTypes u !! "change" = Some ChangeType ->
  attributes e !! "_undo" = Some (VArr r (VStr <$> names)) ->
  record_change (Changed e opts) w = Some (tt, w).
Proof.
  intros Hu Hk He. unfold record_change, bindM, the_um. rewrite Hu.
  destruct (track u); [|reflexivity].
  cbn [n_kind]. rewrite Hk. cbn [condition_of n_model].
  by rewrite (condition_names e r names He).
Qed.

Lemma listed_entity_change_never_recorded_witness :
  undoTypes (example_manager example_stack 3) !! "change" = Some ChangeType /\
  attributes listed !! "_undo" = Some (VArr 7 (VStr <$> ["color"%string])) /\
  record_change (Changed listed ∅) (example_world false None example_stack 3)
    = Some (tt, example_world false None example_stack 3).
Proof.
  split; [reflexivity|]. split; [reflexivity|].
  apply (listed_entity_change_never_recorded
           (example_world false None example_stack 3)
           (example_manager example_stack 3) listed 7 ["color"%string] ∅);
    reflexivity.
Defined.

(** ** The handlers and their options *)

(** X17: suppression is the only reason for a capture handler to return
    nothing: each of the four handlers returns a result exactly when neither
    [avoidStore] nor [noUndo] holds a truthy value (omitted options
    included), whatever the entity, the collection and the cache. *)
Theorem handlers_capture_unless_suppressed
    (e : Entity) (col : nat) (o : option jsobj) (c : cache) :
  (is_Some (fst (on_change e o c)) <-> skips o = false) /\
  (is_Some (fst (on_custom e o c)) <-> skips o = false) /\
  (is_Some (on_add e col o) <-> skips o = false) /\
  (is_Some (on_remove e col o) <-> skips o = false) /\
  (skips o = false <->
   truthy (prop (or_empty o) "avoidStore") = false /\
   truthy (prop (or_empty o) "noUndo") = false).
Proof.
  unfold skips. rewrite truthy_hasSkip.
  unfold on_change, on_custom, on_add, on_remove. rewrite !truthy_hasSkip.
  destruct (truthy (prop (or_empty o) "avoidStore")),
           (truthy (prop (or_empty o) "noUndo")); cbn [orb fst];
    repeat split; try done; try (by intros [? ?]); try (by intros [? ?%eq_sym]);
    try (intros _; by eexists).
Qed.

(** X18: the ['change'] and custom handlers read two options only, and keep
    none: two notifications whose options agree on [avoidStore] and [noUndo]
    give the same result and the same cache, and a record they produce has
    no [options], unlike the records of ['add'] and ['remove']. *)
Theorem change_capture_ignores_other_options
    (h : handler) (e : Entity) (o o' : jsobj) (c : cache) :
  prop o "avoidStore" = prop o' "avoidStore" ->
  prop o "noUndo" = prop o' "noUndo" ->
  call h e (Some o) c = call h e (Some o') c /\
  forall r, fst (call h e (Some o) c) = Some r -> options r = None.
Proof.
  intros Ha Hn.
  assert (skips (Some o) = skips (Some o')) as Hs.
  { unfold skips, hasSkip. change (or_empty (Some o)) with o.
    change (or_empty (Some o')) with o'. by rewrite Ha, Hn. }
  destruct (skips (Some o')) eqn:E.
  - rewrite !call_skipped by congruence. split; [reflexivity|]. discriminate.
  - rewrite !call_captured by congruence. split; [reflexivity|].
    by intros r [= <-].
Qed.

Lemma change_capture_ignores_other_options_witness :
  prop (<["silent" := VBool true]> noUndo) "avoidStore" = prop noUndo "avoidStore" /\
  prop (<["silent" := VBool true]> noUndo) "noUndo" = prop noUndo "noUndo" /\
  call OnChange entityA (Some (<["silent" := VBool true]> noUndo)) None
    = call OnChange entityA (Some noUndo) None.
Proof.
  split; [reflexivity|]. split; [reflexivity|].
  apply (change_capture_ignores_other_options OnChange entityA
           (<["silent" := VBool true]> noUndo) noUndo None); reflexivity.
Defined.
